(** * Label verifier: a shallow embedding of github_issue_pr_label_verifier.py

    The script checks that issues and pull requests of a repository carry
    the labels a configuration file expects.  This development embeds the
    configuration loader, the remote label fetcher and the verification
    loop, and states the properties of the specification over them.

    Conventions of the embedding.
    - Values decoded by [yaml.safe_load] and [response.json()] are
      dynamically typed; they are embedded in one type [pyval].
    - A Python [str] is a Coq [string]; one [ascii] stands for one
      character, and [String.compare] is the character-wise order that
      Python uses for [<] on [str].
    - Exceptions, the two output streams and the outside world (the HTTP
      server, the file system) are threaded by the monad [M]: a computation
      maps a world to an outcome, the next world and the messages printed.
      Every [print] of the source is one [message] constructor carrying the
      values interpolated into the text. *)

From Stdlib Require Import ZArith List String Ascii Bool Lia.
From Stdlib Require Import Permutation Sorted DecimalString.
From Stdlib Require Import Floats.SpecFloat.
Import ListNotations.

#[local] Set Warnings "-register-all".

Local Open Scope Z_scope.
Local Open Scope string_scope.
Local Open Scope list_scope.

(* ------------------------------------------------------------------ *)
(** ** Python values *)

Module Py.

(** What [json.loads] and [yaml.safe_load] build.  A dict keeps its
    entries in insertion order; a real dict has no two equal keys. *)
Inductive pyval : Type :=
| PNone
| PBool (b : bool)
| PInt (z : Z)
| PFloat (f : spec_float)
| PStr (s : string)
| PList (l : list pyval)
| PDict (kvs : list (pyval * pyval)).

(** The exceptions that occur.  [SystemExit] is raised by [sys.exit]; it
    derives from [BaseException] only, so [except Exception] lets it
    through.  [LibraryError] stands for whatever a library call raises
    ([requests.get], [response.json()], [open], [yaml.safe_load]); it
    carries [str(e)]. *)
Inductive exn : Type :=
| KeyError (key : string)
| TypeError
| AttributeError
| ValueError
| LibraryError (msg : string)
| SystemExit (code : Z).

Definition is_Exception (e : exn) : bool :=
  match e with
  | SystemExit _ => false
  | _ => true
  end.

Definition is_ValueError (e : exn) : bool :=
  match e with
  | ValueError => true
  | _ => false
  end.

Inductive outcome (A : Type) : Type :=
| Return (a : A)
| Raise (e : exn).
Arguments Return {A} a.
Arguments Raise {A} e.

Definition obind {A B} (o : outcome A) (k : A -> outcome B) : outcome B :=
  match o with
  | Return a => k a
  | Raise e => Raise e
  end.

(** [bool(v)], as used by [not v] and [if v]. *)
Definition truthy (v : pyval) : bool :=
  match v with
  | PNone => false
  | PBool b => b
  | PInt z => negb (z =? 0)%Z
  | PFloat (S754_zero _) => false
  | PFloat _ => true
  | PStr s => negb (s =? "")%string
  | PList l => match l with [] => false | _ => true end
  | PDict kvs => match kvs with [] => false | _ => true end
  end.

(** Does the key [k] of a dict equal the str [name]?  Only a str does. *)
Definition key_is (name : string) (k : pyval) : bool :=
  match k with
  | PStr s => (s =? name)%string
  | _ => false
  end.

(** [d.get(name)] on the entries of a dict, [None] when the key is absent. *)
Fixpoint dict_lookup (name : string) (kvs : list (pyval * pyval)) : option pyval :=
  match kvs with
  | [] => None
  | (k, v) :: rest => if key_is name k then Some v else dict_lookup name rest
  end.

(** [name in d] *)
Definition dict_has (name : string) (kvs : list (pyval * pyval)) : bool :=
  match dict_lookup name kvs with Some _ => true | None => false end.

(** [d[name] = v]: an existing key keeps its place, a new one goes last. *)
Fixpoint dict_set (name : string) (v : pyval) (kvs : list (pyval * pyval))
  : list (pyval * pyval) :=
  match kvs with
  | [] => [(PStr name, v)]
  | (k, v0) :: rest =>
      if key_is name k then (k, v) :: rest else (k, v0) :: dict_set name v rest
  end.

(** [v.get(name, default)]: only a dict has the method. *)
Definition py_get (v : pyval) (name : string) (default : pyval) : outcome pyval :=
  match v with
  | PDict kvs =>
      Return (match dict_lookup name kvs with Some x => x | None => default end)
  | _ => Raise AttributeError
  end.

(** [v[name]] with a str subscript: a dict looks the key up, a list and a
    str want an integer, the other values are not subscriptable. *)
Definition py_getitem (v : pyval) (name : string) : outcome pyval :=
  match v with
  | PDict kvs =>
      match dict_lookup name kvs with
      | Some x => Return x
      | None => Raise (KeyError name)
      end
  | _ => Raise TypeError
  end.

Fixpoint chars (s : string) : list pyval :=
  match s with
  | EmptyString => []
  | String c rest => PStr (String c EmptyString) :: chars rest
  end.

(** [iter(v)]: the elements a [for] loop visits. *)
Definition py_iter (v : pyval) : outcome (list pyval) :=
  match v with
  | PList l => Return l
  | PDict kvs => Return (map fst kvs)
  | PStr s => Return (chars s)
  | _ => Raise TypeError
  end.

(** [[f(x) for x in l]]: the first exception ends the comprehension. *)
Fixpoint comprehension {A B} (f : A -> outcome B) (l : list A) : outcome (list B) :=
  match l with
  | [] => Return []
  | x :: rest =>
      obind (f x) (fun y => obind (comprehension f rest) (fun ys => Return (y :: ys)))
  end.

(** [str(n)] for an int. *)
Definition str_of_int (n : Z) : string := NilZero.string_of_int (Z.to_int n).

(** *** [sorted] on a list of str

    [sorted] is stable and [<] on str is a total order whose equivalence
    is equality, so every sorting algorithm returns the same list; the
    model inserts from the right. *)
Fixpoint insert (x : string) (l : list string) : list string :=
  match l with
  | [] => [x]
  | y :: rest => if (x <=? y)%string then x :: l else y :: insert x rest
  end.

Fixpoint sorted (l : list string) : list string :=
  match l with
  | [] => []
  | x :: rest => insert x (sorted rest)
  end.

(** [s <= t] on str. *)
Definition str_le (s t : string) : Prop := (s <=? t)%string = true.

(** The str elements of a list, when all of them are str. *)
Fixpoint all_str (l : list pyval) : option (list string) :=
  match l with
  | [] => Some []
  | PStr s :: rest =>
      match all_str rest with Some ss => Some (s :: ss) | None => None end
  | _ :: _ => None
  end.

(** [l == e], a list against a list of str: same length and equal
    elements; a value that is not a str equals no str. *)
Fixpoint list_eq_strs (l : list pyval) (e : list string) : bool :=
  match l, e with
  | [], [] => true
  | PStr s :: l', t :: e' => (s =? t)%string && list_eq_strs l' e'
  | _, _ => false
  end.

End Py.
Import Py.

(* ------------------------------------------------------------------ *)
(** ** The fixed configuration [CONFIG] of the script *)

Module CONFIG.

Definition api_version : string := "application/vnd.github.v3+json".
Definition user_agent : string := "Label-Verifier/1.0".
Definition success_status_code : Z := 200.
Definition not_found_status_code : Z := 404.
Definition response_truncate_length : nat := 100.

Definition target_repo : string := "target_repo".
Definition expected_labels : string := "expected_labels".
Definition issue_range : string := "issue_range".

Definition issue_keyword : string := "Issue".
Definition pr_keyword : string := "PR".
Definition sort_labels : bool := true.

End CONFIG.

Definition GITHUB_API_VERSION : string := CONFIG.api_version.

(* ------------------------------------------------------------------ *)
(** ** Output, the world and the monad *)

Inductive stream : Type := Stdout | Stderr.

(** One constructor for each [print] of the source; a message that shows
    [str(e)] carries the exception [e]. *)
Inductive message : Type :=
| MsgRule
| MsgStart (org repo : string)
| MsgRangeRule (lo hi : Z) (issue_kw pr_kw : string)
| MsgChecking (item_type : string) (item_number : Z)
| MsgFetchFailed (item_type : string) (item_number : Z)
| MsgMatch (item_type : string) (item_number : Z) (actual_sorted : list pyval)
| MsgMismatch (item_type : string) (item_number : Z)
| MsgExpected (expected_sorted : list string)
| MsgActual (actual_sorted : list pyval)
| MsgFinalRule
| MsgAllPassed
| MsgSomeFailed
| MsgApiError (endpoint : string) (status : Z)
| MsgResponseText (excerpt : string)
| MsgRequestException (endpoint : string) (e : exn)
| MsgConfigFileMissing (path : string)
| MsgFieldMissing (field : string)
| MsgRangeFormat
| MsgLoadFailed (e : exn).

Definition event : Type := stream * message.

(** A [requests] response: its status, its text, and what [.json()] does
    (raise with a message, or return the decoded body). *)
Record Response : Type := mkResponse {
  status_code : Z;
  text : string;
  json : string + pyval
}.

(** A computation: from a world to its outcome, the world it leaves and
    what it printed.  An exception keeps both. *)
Definition M (W A : Type) : Type := W -> outcome A * W * list event.

Definition ret {W A} (a : A) : M W A := fun w => (Return a, w, []).

Definition raise {W A} (e : exn) : M W A := fun w => (Raise e, w, []).

Definition bind {W A B} (m : M W A) (k : A -> M W B) : M W B :=
  fun w =>
    match m w with
    | (Return a, w1, out1) =>
        let '(r, w2, out2) := k a w1 in (r, w2, out1 ++ out2)
    | (Raise e, w1, out1) => (Raise e, w1, out1)
    end.

Definition lift {W A} (o : outcome A) : M W A := fun w => (o, w, []).

Definition print {W} (s : stream) (m : message) : M W unit :=
  fun w => (Return tt, w, [(s, m)]).

(** [try: body except C as e: handler e], [catches] telling the
    exceptions of class [C]. *)
Definition try_catch {W A} (catches : exn -> bool) (body : M W A)
    (handler : exn -> M W A) : M W A :=
  fun w =>
    match body w with
    | (Raise e, w1, out1) =>
        if catches e
        then let '(r, w2, out2) := handler e w1 in (r, w2, out1 ++ out2)
        else (Raise e, w1, out1)
    | done => done
    end.

(** [try: body except Exception as e: handler e] *)
Definition try_except {W A} (body : M W A) (handler : exn -> M W A) : M W A :=
  try_catch is_Exception body handler.

(** [sys.exit(code)] *)
Definition sys_exit {W A} (code : Z) : M W A := raise (SystemExit code).

(** The events of [out], then those of the run [r]. *)
Definition prepend {W A} (out : list event) (r : outcome A * W * list event)
  : outcome A * W * list event :=
  let '(o, w, out') := r in (o, w, out ++ out').

Declare Scope py_scope.
Delimit Scope py_scope with py.
Notation "x <- m ;; k" := (bind m (fun x => k))
  (at level 100, m at next level, right associativity) : py_scope.
Notation "' pat <- m ;; k" := (bind m (fun x => match x with pat => k end))
  (at level 100, pat pattern, m at next level, right associativity) : py_scope.
Notation "m ;; k" := (bind m (fun _ => k))
  (at level 100, right associativity) : py_scope.

(* ------------------------------------------------------------------ *)
(** ** The verifier *)

(** The configuration as [run_verification] reads it: the loaded mapping
    with [target_repo] a str, the two parsed bounds, and [expected_labels]
    a dict from item numbers to lists of str, in insertion order. *)
Record VerificationConfig : Type := mkConfig {
  target_repo : string;
  issue_min : Z;
  issue_max : Z;
  expected_labels : list (Z * list string)
}.

Definition get_github_headers (token : string) : list (string * string) :=
  [ ("Authorization", ("Bearer " ++ token)%string);
    ("Accept", GITHUB_API_VERSION);
    ("User-Agent", CONFIG.user_agent) ].

(** Lines 157-159: the item type printed for an item number. *)
Definition item_type_of (config : VerificationConfig) (item_number : Z) : string :=
  if (issue_min config <=? item_number)%Z && (item_number <=? issue_max config)%Z
  then CONFIG.issue_keyword
  else CONFIG.pr_keyword.

(** Line 171. *)
Definition sort_expected (expected : list string) : list string :=
  if CONFIG.sort_labels then sorted expected else expected.

(** Line 117: the address of an endpoint. *)
Definition api_url (org repo endpoint : string) : string :=
  ("https://api.github.com/repos/" ++ org ++ "/" ++ repo ++ "/" ++ endpoint)%string.

(** The endpoint of an item, line 135. *)
Definition item_endpoint (item_number : Z) : string :=
  ("issues/" ++ str_of_int item_number)%string.

(** Line 138: [[label["name"] for label in result.get("labels", [])]] *)
Definition label_names (result : pyval) : outcome (list pyval) :=
  obind (py_get result "labels" (PList []))
    (fun labels =>
       obind (py_iter labels)
         (comprehension (fun label => py_getitem label "name"))).

Section Verifier.

(** The remote host: [requests_get url headers] answers with a response
    or fails with the message of its exception, and may change. *)
Variable World : Type.
Variable requests_get :
  string -> list (string * string) -> World -> (string + Response) * World.

(** [sorted] on a list with an element that is not a str is left open:
    it may return any list or raise. *)
Variable sorted_other : list pyval -> outcome (list pyval).

Local Open Scope py_scope.

Definition py_sorted (l : list pyval) : outcome (list pyval) :=
  match all_str l with
  | Some ss => Return (map PStr (sorted ss))
  | None => sorted_other l
  end.

(** Line 170. *)
Definition sort_actual (actual_labels : list pyval) : outcome (list pyval) :=
  if CONFIG.sort_labels then py_sorted actual_labels else Return actual_labels.

Definition http_get (url : string) (headers : list (string * string))
  : M World Response :=
  fun w =>
    match requests_get url headers w with
    | (inr response, w1) => (Return response, w1, [])
    | (inl msg, w1) => (Raise (LibraryError msg), w1, [])
    end.

Definition response_json (response : Response) : M World pyval :=
  match json response with
  | inr body => ret body
  | inl msg => raise (LibraryError msg)
  end.

Definition _get_github_api (endpoint : string) (headers : list (string * string))
    (org repo : string) : M World (bool * pyval) :=
  let url := api_url org repo endpoint in
  try_except
    (response <- http_get url headers ;;
     if (status_code response =? CONFIG.success_status_code)%Z then
       body <- response_json response ;;
       ret (true, body)
     else if (status_code response =? CONFIG.not_found_status_code)%Z then
       ret (false, PNone)
     else
       print Stderr (MsgApiError endpoint (status_code response)) ;;
       print Stderr
         (MsgResponseText
            (substring 0 CONFIG.response_truncate_length (text response))) ;;
       ret (false, PNone))
    (fun e =>
       print Stderr (MsgRequestException endpoint e) ;;
       ret (false, PNone)).

Definition _get_item_labels (item_number : Z) (headers : list (string * string))
    (org repo : string) : M World (option (list pyval)) :=
  ' (success, result) <-
      _get_github_api (item_endpoint item_number) headers org repo ;;
  if negb success || negb (truthy result) then ret None
  else
    names <- lift (label_names result) ;;
    ret (Some names).

(** Lines 170-173: the comparison of the fetched labels with the expected
    ones, as the loop body makes it. *)
Definition labels_equal (expected : list string) (actual_labels : list pyval)
  : outcome bool :=
  obind (sort_actual actual_labels)
    (fun actual_sorted =>
       Return (list_eq_strs actual_sorted (sort_expected expected))).

(** The body of the loop of [run_verification] for one entry; it returns
    the new value of [all_passed]. *)
Definition verify_item (config : VerificationConfig) (headers : list (string * string))
    (github_org : string) (item_number : Z) (expected : list string)
    (all_passed : bool) : M World bool :=
  let item_type := item_type_of config item_number in
  print Stdout (MsgChecking item_type item_number) ;;
  actual_labels <-
    _get_item_labels item_number headers github_org (target_repo config) ;;
  match actual_labels with
  | None =>
      print Stderr (MsgFetchFailed item_type item_number) ;;
      ret false
  | Some actual_labels =>
      actual_sorted <- lift (sort_actual actual_labels) ;;
      let expected_sorted := sort_expected expected in
      if list_eq_strs actual_sorted expected_sorted then
        print Stdout (MsgMatch item_type item_number actual_sorted) ;;
        ret all_passed
      else
        print Stderr (MsgMismatch item_type item_number) ;;
        print Stderr (MsgExpected expected_sorted) ;;
        print Stderr (MsgActual actual_sorted) ;;
        ret false
  end.

(** [for item_number, expected in expected_labels.items(): ...] *)
Fixpoint verify_items (config : VerificationConfig) (headers : list (string * string))
    (github_org : string) (items : list (Z * list string)) (all_passed : bool)
  : M World bool :=
  match items with
  | [] => ret all_passed
  | (item_number, expected) :: rest =>
      all_passed <- verify_item config headers github_org item_number expected all_passed ;;
      verify_items config headers github_org rest all_passed
  end.

Definition run_verification (config : VerificationConfig)
    (github_token github_org : string) : M World bool :=
  let headers := get_github_headers github_token in
  let all_passed := true in
  print Stdout MsgRule ;;
  print Stdout (MsgStart github_org (target_repo config)) ;;
  print Stdout
    (MsgRangeRule (issue_min config) (issue_max config)
       CONFIG.issue_keyword CONFIG.pr_keyword) ;;
  print Stdout MsgRule ;;
  all_passed <- verify_items config headers github_org (expected_labels config) all_passed ;;
  print Stdout MsgFinalRule ;;
  (if all_passed : bool then print Stdout MsgAllPassed else print Stderr MsgSomeFailed) ;;
  print Stdout MsgRule ;;
  ret all_passed.

End Verifier.

(* ------------------------------------------------------------------ *)
(** ** What a run shows about each item

    The script keeps no record per item: the verdict on an item is the
    line it prints for it.  [item_results] reads the verdicts off the
    output, in the order they were printed. *)

Inductive verdict : Type :=
| Matched
| Mismatched
| FetchFailed.

Record ItemResult : Type := mkItemResult {
  item_number : Z;
  kind : string;
  outcome_of : verdict
}.

Definition passed (r : ItemResult) : bool :=
  match outcome_of r with
  | Matched => true
  | _ => false
  end.

Definition item_result_of (e : event) : list ItemResult :=
  match e with
  | (Stdout, MsgMatch t n _) => [mkItemResult n t Matched]
  | (Stderr, MsgMismatch t n) => [mkItemResult n t Mismatched]
  | (Stderr, MsgFetchFailed t n) => [mkItemResult n t FetchFailed]
  | _ => []
  end.

Definition item_results (out : list event) : list ItemResult :=
  flat_map item_result_of out.

(** Messages of the fetcher about a request that went wrong. *)
Definition is_diagnostic (e : event) : bool :=
  match e with
  | (Stderr, MsgApiError _ _) => true
  | (Stderr, MsgResponseText _) => true
  | (Stderr, MsgRequestException _ _) => true
  | _ => false
  end.

(* ------------------------------------------------------------------ *)
(** ** Replies of the remote host *)

(** A label object with a str under [name]. *)
Definition is_label_object (label : pyval) : bool :=
  match label with
  | PDict kvs =>
      match dict_lookup "name" kvs with
      | Some (PStr _) => true
      | _ => false
      end
  | _ => false
  end.

(** A body the extraction of the labels accepts: a falsy one, or an
    object whose [labels], when present, is an array of label objects. *)
Definition benign_body (body : pyval) : bool :=
  negb (truthy body) ||
  match body with
  | PDict kvs =>
      match dict_lookup "labels" kvs with
      | None => true
      | Some (PList labels) => forallb is_label_object labels
      | Some _ => false
      end
  | _ => false
  end.

Definition benign_reply (reply : string + Response) : bool :=
  match reply with
  | inl _ => true
  | inr response =>
      if (status_code response =? CONFIG.success_status_code)%Z
      then match json response with
           | inr body => benign_body body
           | inl _ => true
           end
      else true
  end.

(** A reply that makes the fetch of an item fail: no response at all, a
    status other than success, or a success whose body does not decode. *)
Definition failed_reply (reply : string + Response) : bool :=
  match reply with
  | inl _ => true
  | inr response =>
      if (status_code response =? CONFIG.success_status_code)%Z
      then match json response with inr _ => false | inl _ => true end
      else true
  end.

(** A remote host that replays a script, one reply for each request, and
    refuses the connection when the script is over. *)
Definition Script : Type := list (string + Response).

Definition scripted_get (url : string) (headers : list (string * string))
    (w : Script) : (string + Response) * Script :=
  match w with
  | [] => (inl "connection refused", [])
  | reply :: rest => (reply, rest)
  end.

(** [sorted] raising [TypeError] on every list that is not all str. *)
Definition sorted_raises (l : list pyval) : outcome (list pyval) := Raise TypeError.

(** The reply of a host to a request for an item with these labels. *)
Definition labels_response (names : list string) : Response :=
  mkResponse 200 ""
    (inr (PDict [ (PStr "number", PInt 1);
                  (PStr "labels",
                   PList (map (fun s => PDict [(PStr "id", PInt 7); (PStr "name", PStr s)])
                              names)) ])).

Definition status_response (status : Z) (body : string) : Response :=
  mkResponse status body (inl "Expecting value").

(** A host honours the interface on the worlds of [Inv] when every reply
    it gives there is benign and leaves it in a world of [Inv]. *)
Definition honours {World : Type}
    (requests_get : string -> list (string * string) -> World -> (string + Response) * World)
    (Inv : World -> Prop) : Prop :=
  forall url headers w,
    Inv w ->
    benign_reply (fst (requests_get url headers w)) = true
    /\ Inv (snd (requests_get url headers w)).

(** The entries of the configuration as the results name them: the item
    number and the type it is printed with. *)
Definition item_keys (config : VerificationConfig) (items : list (Z * list string))
  : list (Z * string) :=
  map (fun entry => (fst entry, item_type_of config (fst entry))) items.

Definition result_key (r : ItemResult) : Z * string := (item_number r, kind r).

(** The lines around the loop of [run_verification]. *)
Definition header_events (config : VerificationConfig) (github_org : string)
  : list event :=
  [ (Stdout, MsgRule);
    (Stdout, MsgStart github_org (target_repo config));
    (Stdout, MsgRangeRule (issue_min config) (issue_max config)
               CONFIG.issue_keyword CONFIG.pr_keyword);
    (Stdout, MsgRule) ].

Definition footer_events (all_passed : bool) : list event :=
  [ (Stdout, MsgFinalRule);
    (if all_passed then (Stdout, MsgAllPassed) else (Stderr, MsgSomeFailed));
    (Stdout, MsgRule) ].

(** The lines of one item: the announcement, the diagnostics of the
    fetch, and the verdict. *)
Definition item_events (item_type : string) (n : Z) (diag verdict : list event)
  : list event :=
  (Stdout, MsgChecking item_type n) :: diag ++ verdict.

(** [label] is an object with [name] under its key [name]. *)
Definition has_name (label name : pyval) : Prop :=
  exists kvs, label = PDict kvs /\ dict_lookup "name" kvs = Some name.

(** *** Sample runs *)

(** Two issues, the second with a label other than the expected one. *)
Definition scenario_config : VerificationConfig :=
  mkConfig "demo" 1 2 [ (1, ["bug"]); (2, ["enhancement"]) ].

Definition scenario_script : Script :=
  [ inr (labels_response ["bug"]); inr (labels_response ["feature"]) ].

(** Two issues and a pull request; the second issue does not exist. *)
Definition gap_config : VerificationConfig :=
  mkConfig "demo" 1 15 [ (1, ["bug"]); (2, ["enhancement"]); (20, ["docs"; "api"]) ].

Definition gap_script : Script :=
  [ inr (labels_response ["bug"]);
    inr (status_response 404 "Not Found");
    inr (labels_response ["api"; "docs"]) ].

(** A success whose label object has no [name]. *)
Definition nameless_response : Response :=
  mkResponse 200 ""
    (inr (PDict [ (PStr "labels", PList [ PDict [ (PStr "id", PInt 7) ] ]) ])).

(** A success with an empty object, and one with an object without
    [labels]. *)
Definition empty_object_response : Response := mkResponse 200 "{}" (inr (PDict [])).

Definition unlabelled_response : Response :=
  mkResponse 200 "" (inr (PDict [ (PStr "number", PInt 3) ])).

(* ------------------------------------------------------------------ *)
(** ** The configuration loader *)

(** [s.split(sep)] for a separator of one character. *)
Fixpoint split_on (sep : ascii) (s : string) : list string :=
  match s with
  | EmptyString => [EmptyString]
  | String c rest =>
      if Ascii.eqb c sep then EmptyString :: split_on sep rest
      else
        match split_on sep rest with
        | piece :: pieces => String c piece :: pieces
        | [] => [String c EmptyString]
        end
  end.

Fixpoint contains_char (c : ascii) (s : string) : bool :=
  match s with
  | EmptyString => false
  | String c' rest => Ascii.eqb c' c || contains_char c rest
  end.

(** [p in s] on two str. *)
Fixpoint is_substring (p s : string) : bool :=
  String.prefix p s ||
  match s with
  | EmptyString => false
  | String _ rest => is_substring p rest
  end.

(** [name in v] *)
Definition py_contains (v : pyval) (name : string) : outcome bool :=
  match v with
  | PDict kvs => Return (dict_has name kvs)
  | PList l => Return (existsb (key_is name) l)
  | PStr s => Return (is_substring name s)
  | _ => Raise TypeError
  end.

(** [v.split(sep)]: only a str has the method. *)
Definition py_split (v : pyval) (sep : ascii) : outcome (list string) :=
  match v with
  | PStr s => Return (split_on sep s)
  | _ => Raise AttributeError
  end.

(** [v[name] = x] *)
Definition py_setitem (v : pyval) (name : string) (x : pyval) : outcome pyval :=
  match v with
  | PDict kvs => Return (PDict (dict_set name x kvs))
  | _ => Raise TypeError
  end.

(** A reading of [int(s)]: plain decimal digits, at least one. *)
Definition digit_of (c : ascii) : option Z :=
  let n := Z.of_N (N_of_ascii c) in
  if (48 <=? n)%Z && (n <=? 57)%Z then Some (n - 48)%Z else None.

Fixpoint decimal_digits (acc : Z) (s : string) : option Z :=
  match s with
  | EmptyString => Some acc
  | String c rest =>
      match digit_of c with
      | Some d => decimal_digits (10 * acc + d) rest
      | None => None
      end
  end.

Definition decimal_int (s : string) : option Z :=
  match s with
  | EmptyString => None
  | _ => decimal_digits 0 s
  end.

Section Loader.

(** The file system: whether a path exists, and what [open] followed by
    [yaml.safe_load] gives for it, the message of an exception or the
    document.  [py_int] is [int] on a str, [None] for [ValueError]. *)
Variable World : Type.
Variable path_exists : string -> World -> bool.
Variable yaml_safe_load : string -> World -> string + pyval.
Variable py_int : string -> option Z.

Local Open Scope py_scope.

Definition os_path_exists (path : string) : M World bool :=
  fun w => (Return (path_exists path w), w, []).

Definition load_yaml (path : string) : M World pyval :=
  fun w =>
    match yaml_safe_load path w with
    | inr document => (Return document, w, [])
    | inl msg => (Raise (LibraryError msg), w, [])
    end.

Definition int_of (s : string) : outcome Z :=
  match py_int s with
  | Some z => Return z
  | None => Raise ValueError
  end.

(** [a, b = map(int, parts)]: the items are converted as the unpacking
    asks for them, one more than two to see that there are no more. *)
Definition unpack_two_ints (parts : list string) : outcome (Z * Z) :=
  match parts with
  | [] => Raise ValueError
  | first :: others =>
      obind (int_of first) (fun a =>
        match others with
        | [] => Raise ValueError
        | second :: more =>
            obind (int_of second) (fun b =>
              match more with
              | [] => Return (a, b)
              | third :: _ => obind (int_of third) (fun _ => Raise ValueError)
              end)
        end)
  end.

(** Lines 86-89. *)
Fixpoint check_required (config : pyval) (fields : list string) : M World unit :=
  match fields with
  | [] => ret tt
  | field :: rest =>
      present <- lift (py_contains config field) ;;
      if negb present then
        print Stderr (MsgFieldMissing field) ;;
        sys_exit 1
      else check_required config rest
  end.

Definition load_project_config (config_path : string) : M World pyval :=
  found <- os_path_exists config_path ;;
  if negb found then
    print Stderr (MsgConfigFileMissing config_path) ;;
    sys_exit 1
  else
    try_except
      (config <- load_yaml config_path ;;
       let required_fields :=
         [CONFIG.target_repo; CONFIG.expected_labels; CONFIG.issue_range] in
       check_required config required_fields ;;
       config <-
         try_catch is_ValueError
           (range <- lift (py_getitem config "issue_range") ;;
            parts <- lift (py_split range "-") ;;
            ' (issue_min, issue_max) <- lift (unpack_two_ints parts) ;;
            config <- lift (py_setitem config "issue_min" (PInt issue_min)) ;;
            config <- lift (py_setitem config "issue_max" (PInt issue_max)) ;;
            ret config)
           (fun _ =>
              print Stderr MsgRangeFormat ;;
              sys_exit 1) ;;
       ret config)
      (fun e =>
         print Stderr (MsgLoadFailed e) ;;
         sys_exit 1).

(** [s] reads as the bounds [lo] and [hi]: one hyphen, with [int] reading
    [lo] before it and [hi] after it. *)
Definition range_parse (s : string) (lo hi : Z) : Prop :=
  exists p q : string,
    s = (p ++ "-" ++ q)%string
    /\ contains_char "-" p = false
    /\ contains_char "-" q = false
    /\ py_int p = Some lo
    /\ py_int q = Some hi.

End Loader.

(** A configuration file with the bounds the wrong way round. *)
Definition reversed_entries : list (pyval * pyval) :=
  [ (PStr "target_repo", PStr "demo");
    (PStr "issue_range", PStr "15-1");
    (PStr "expected_labels", PDict [ (PInt 1, PList [PStr "bug"]) ]) ].

Definition reversed_document : pyval := PDict reversed_entries.

(** A configuration file with a negative lower bound. *)
Definition negative_entries : list (pyval * pyval) :=
  [ (PStr "target_repo", PStr "demo");
    (PStr "issue_range", PStr "-5-10");
    (PStr "expected_labels", PDict []) ].

From Stdlib Require Import DecimalPos DecimalZ.

(* ------------------------------------------------------------------ *)
(** ** The requests a run makes *)

(** A request as the host sees it: the address and the headers. *)
Definition Request : Type := string * list (string * string).

(** A host that, beside answering as [get] does, keeps the list of the
    requests it received. *)
Definition logging_get {W : Type}
    (get : string -> list (string * string) -> W -> (string + Response) * W)
    (url : string) (headers : list (string * string)) (w : W * list Request)
  : (string + Response) * (W * list Request) :=
  let '(reply, w1) := get url headers (fst w) in
  (reply, (w1, snd w ++ [(url, headers)])).

(** The request of [run_verification] for an item. *)
Definition item_request (token org repo : string) (n : Z) : Request :=
  (api_url org repo (item_endpoint n), get_github_headers token).

Definition on_stderr (e : event) : bool :=
  match fst e with
  | Stderr => true
  | Stdout => false
  end.

(** The number of occurrences of a character. *)
Fixpoint count_char (c : ascii) (s : string) : nat :=
  match s with
  | EmptyString => 0%nat
  | String c' rest => ((if Ascii.eqb c' c then 1 else 0) + count_char c rest)%nat
  end.

(** [sep.join(pieces)] for a separator of one character. *)
Fixpoint join_with (sep : ascii) (pieces : list string) : string :=
  match pieces with
  | [] => EmptyString
  | [piece] => piece
  | piece :: rest => (piece ++ String sep (join_with sep rest))%string
  end.

(* ------------------------------------------------------------------ *)
(** ** The entry point *)

Module FILE_PATHS.

Definition default_env_file : string := ".mcp_env".
Definition default_config_file : string := "label_verify_config.yaml".
Definition script_filename : string := "github_issue_pr_label_verifier.py".

End FILE_PATHS.

Module ENV_VARS.

Definition github_token_var : string := "MCP_GITHUB_TOKEN".
Definition github_org_var : string := "GITHUB_EVAL_ORG".

End ENV_VARS.

Definition DEFAULT_ENV_FILE : string := FILE_PATHS.default_env_file.
Definition DEFAULT_CONFIG_FILE : string := FILE_PATHS.default_config_file.

(** What [parser.parse_args()] returns. *)
Record Namespace : Type := mkNamespace {
  args_config : string;
  args_env : string
}.

(** The namespace of a command line: an option that is absent takes its
    default. *)
Definition parse_args (config_option env_option : option string) : Namespace :=
  mkNamespace
    (match config_option with Some path => path | None => DEFAULT_CONFIG_FILE end)
    (match env_option with Some path => path | None => DEFAULT_ENV_FILE end).

(** The lines of [load_environment] and [main], beside those of the loader
    and of the verifier. *)
Inductive process_message : Type :=
| Core (m : message)
| MsgLoadingEnv (path : string)
| MsgLoadingConfig (path : string)
| MsgSeparator
| MsgEnvFileMissing (path : string)
| MsgTokenMissing (path : string)
| MsgOrgMissing (path : string).

Definition process_event : Type := stream * process_message.

Definition core_event (e : event) : process_event := (fst e, Core (snd e)).

(** A computation of the process. *)
Definition Proc (W A : Type) : Type := W -> outcome A * W * list process_event.

Definition pret {W A} (a : A) : Proc W A := fun w => (Return a, w, []).

Definition praise {W A} (e : exn) : Proc W A := fun w => (Raise e, w, []).

Definition pbind {W A B} (m : Proc W A) (k : A -> Proc W B) : Proc W B :=
  fun w =>
    match m w with
    | (Return a, w1, out1) =>
        let '(r, w2, out2) := k a w1 in (r, w2, out1 ++ out2)
    | (Raise e, w1, out1) => (Raise e, w1, out1)
    end.

Definition say {W} (s : stream) (m : process_message) : Proc W unit :=
  fun w => (Return tt, w, [(s, m)]).

(** A computation of the loader or of the verifier, inside the process. *)
Definition core {W A} (m : M W A) : Proc W A :=
  fun w => let '(r, w1, out) := m w in (r, w1, map core_event out).

Definition process_exit {W A} (code : Z) : Proc W A := praise (SystemExit code).

Declare Scope proc_scope.
Delimit Scope proc_scope with proc.
Notation "x <- m ;; k" := (pbind m (fun x => k))
  (at level 100, m at next level, right associativity) : proc_scope.
Notation "' pat <- m ;; k" := (pbind m (fun x => match x with pat => k end))
  (at level 100, pat pattern, m at next level, right associativity) : proc_scope.
Notation "m ;; k" := (pbind m (fun _ => k))
  (at level 100, right associativity) : proc_scope.

(** [not v] for what [os.getenv] returns: [None] or a str. *)
Definition unset (v : option string) : bool :=
  match v with
  | None => true
  | Some s => (s =? "")%string
  end.

(** The str of a variable that is set. *)
Definition env_value (v : option string) : string :=
  match v with
  | Some s => s
  | None => EmptyString
  end.

(** The entries of [expected_labels] when every key is an int and every
    value a list of str. *)
Fixpoint view_expected (entries : list (pyval * pyval))
  : option (list (Z * list string)) :=
  match entries with
  | [] => Some []
  | (PInt n, PList labels) :: rest =>
      match all_str labels, view_expected rest with
      | Some names, Some others => Some ((n, names) :: others)
      | _, _ => None
      end
  | _ :: _ => None
  end.

(** The loaded mapping as [run_verification] reads it (lines 143-144, 151
    and 158), when its values have the shapes the script assumes. *)
Definition config_view (config : pyval) : option VerificationConfig :=
  match config with
  | PDict kvs =>
      match dict_lookup "target_repo" kvs, dict_lookup "expected_labels" kvs,
            dict_lookup "issue_min" kvs, dict_lookup "issue_max" kvs with
      | Some (PStr repo), Some (PDict entries), Some (PInt lo), Some (PInt hi) =>
          match view_expected entries with
          | Some expected => Some (mkConfig repo lo hi expected)
          | None => None
          end
      | _, _, _, _ => None
      end
  | _ => None
  end.

Section EntryPoint.

(** The world of the process: the file system and the environment beside
    the remote host.  [load_dotenv] leaves a new environment, or raises
    with a message. *)
Variable World : Type.
Variable path_exists : string -> World -> bool.
Variable yaml_safe_load : string -> World -> string + pyval.
Variable py_int : string -> option Z.
Variable load_dotenv : string -> World -> option string * World.
Variable getenv : string -> World -> option string.
Variable requests_get :
  string -> list (string * string) -> World -> (string + Response) * World.
Variable sorted_other : list pyval -> outcome (list pyval).

(** [run_verification] on a mapping whose values are not of the shapes of
    [config_view] is left open. *)
Variable run_untyped : pyval -> string -> string -> M World bool.

Local Open Scope proc_scope.

Definition dotenv (path : string) : Proc World unit :=
  fun w =>
    match load_dotenv path w with
    | (None, w1) => (Return tt, w1, [])
    | (Some msg, w1) => (Raise (LibraryError msg), w1, [])
    end.

Definition os_getenv (name : string) : Proc World (option string) :=
  fun w => (Return (getenv name w), w, []).

Definition load_environment (env_path : string) : Proc World (string * string) :=
  found <- core (os_path_exists World path_exists env_path) ;;
  if negb found then
    say Stderr (MsgEnvFileMissing env_path) ;;
    process_exit 1
  else
    dotenv env_path ;;
    github_token <- os_getenv ENV_VARS.github_token_var ;;
    github_org <- os_getenv ENV_VARS.github_org_var ;;
    if unset github_token then
      say Stderr (MsgTokenMissing env_path) ;;
      process_exit 1
    else if unset github_org then
      say Stderr (MsgOrgMissing env_path) ;;
      process_exit 1
    else pret (env_value github_token, env_value github_org).

(** The call of line 218, on the mapping the loader returned. *)
Definition run_verification_on (project_config : pyval)
    (github_token github_org : string) : M World bool :=
  match config_view project_config with
  | Some config =>
      run_verification World requests_get sorted_other config github_token github_org
  | None => run_untyped project_config github_token github_org
  end.

Definition main (args : Namespace) : Proc World unit :=
  say Stdout (MsgLoadingEnv (args_env args)) ;;
  ' (github_token, github_org) <- load_environment (args_env args) ;;
  say Stdout (MsgLoadingConfig (args_config args)) ;;
  project_config <-
    core (load_project_config World path_exists yaml_safe_load py_int
            (args_config args)) ;;
  say Stdout MsgSeparator ;;
  verification_result <-
    core (run_verification_on project_config github_token github_org) ;;
  process_exit (if verification_result : bool then 0 else 1).

End EntryPoint.

(** *** A sample process *)

(** A world of the process: the files that exist, the environment, and the
    replies the host still has to give. *)
Record Machine : Type := mkMachine {
  files : list (string * pyval);
  dotenv_vars : list (string * string);
  environ : list (string * string);
  pending : Script
}.

Fixpoint assoc {A : Type} (name : string) (l : list (string * A)) : option A :=
  match l with
  | [] => None
  | (k, v) :: rest => if (k =? name)%string then Some v else assoc name rest
  end.

Definition machine_exists (path : string) (w : Machine) : bool :=
  match assoc path (files w) with Some _ => true | None => false end.

Definition machine_yaml (path : string) (w : Machine) : string + pyval :=
  match assoc path (files w) with
  | Some document => inr document
  | None => inl "No such file or directory"
  end.

(** [load_dotenv] with its default [override=False]: the variables of the
    file come after those of the environment. *)
Definition machine_dotenv (path : string) (w : Machine) : option string * Machine :=
  (None, mkMachine (files w) (dotenv_vars w) (environ w ++ dotenv_vars w) (pending w)).

Definition machine_getenv (name : string) (w : Machine) : option string :=
  assoc name (environ w).

Definition machine_get (url : string) (headers : list (string * string))
    (w : Machine) : (string + Response) * Machine :=
  let '(reply, rest) := scripted_get url headers (pending w) in
  (reply, mkMachine (files w) (dotenv_vars w) (environ w) rest).

Definition untyped_raises (config : pyval) (token org : string) : M Machine bool :=
  raise TypeError.

Definition demo_document : pyval :=
  PDict [ (PStr "target_repo", PStr "demo");
          (PStr "issue_range", PStr "1-2");
          (PStr "expected_labels",
           PDict [ (PInt 1, PList [PStr "bug"]);
                   (PInt 2, PList [PStr "enhancement"]) ]) ].

Definition demo_machine (replies : Script) : Machine :=
  mkMachine
    [ (".mcp_env", PNone); ("label_verify_config.yaml", demo_document) ]
    [ ("MCP_GITHUB_TOKEN", "token"); ("GITHUB_EVAL_ORG", "org") ]
    []
    replies.

Definition demo_main (w : Machine) : outcome unit * Machine * list process_event :=
  main Machine machine_exists machine_yaml decimal_int machine_dotenv machine_getenv
    machine_get sorted_raises untyped_raises (parse_args None None) w.

(** The int a str of decimal digits stands for, the inverse of [str]. *)
Definition int_of_str (s : string) : option Z :=
  option_map Z.of_int (NilZero.int_of_string s).
(* ------------------------------------------------------------------ *)
(** ** The order on str and [sorted] *)

Lemma str_le_total (s t : string) : str_le s t \/ str_le t s.
Proof. apply String.leb_total. Qed.

Lemma str_le_antisym (s t : string) : str_le s t -> str_le t s -> s = t.
Proof. apply String.leb_antisym. Qed.

Lemma str_le_trans (s t u : string) : str_le s t -> str_le t u -> str_le s u.
Proof.
  unfold str_le, String.leb.
  revert t u; induction s as [|a s IH]; intros [|b t] [|c u]; simpl;
    try congruence.
  unfold Ascii.compare.
  destruct (N.compare_spec (N_of_ascii a) (N_of_ascii b)) as [Hab|Hab|Hab];
    destruct (N.compare_spec (N_of_ascii b) (N_of_ascii c)) as [Hbc|Hbc|Hbc];
    destruct (N.compare_spec (N_of_ascii a) (N_of_ascii c)) as [Hac|Hac|Hac];
    try congruence; try lia.
  apply IH.
Qed.

Lemma str_le_false (s t : string) : (s <=? t)%string = false -> str_le t s.
Proof.
  intros H. destruct (str_le_total s t) as [H1|H1]; [|exact H1].
  unfold str_le in H1. congruence.
Qed.

Lemma insert_perm (x : string) (l : list string) : Permutation (insert x l) (x :: l).
Proof.
  induction l as [|y l IH]; simpl.
  - apply Permutation_refl.
  - destruct (x <=? y)%string.
    + apply Permutation_refl.
    + apply perm_trans with (y :: x :: l).
      * apply perm_skip, IH.
      * apply perm_swap.
Qed.

Lemma sorted_perm (l : list string) : Permutation (sorted l) l.
Proof.
  induction l as [|x l IH]; simpl.
  - apply perm_nil.
  - apply perm_trans with (x :: sorted l).
    + apply insert_perm.
    + apply perm_skip, IH.
Qed.

Lemma insert_sorted (x : string) (l : list string) :
  StronglySorted str_le l -> StronglySorted str_le (insert x l).
Proof.
  induction 1 as [|y l Hl IH Hy]; simpl.
  - repeat constructor.
  - destruct (x <=? y)%string eqn:E.
    + constructor.
      * constructor; assumption.
      * constructor; [exact E|].
        eapply Forall_impl; [|exact Hy].
        intros z Hz. eapply str_le_trans; [exact E|exact Hz].
    + constructor; [exact IH|].
      apply Permutation_Forall with (x :: l).
      * apply Permutation_sym, insert_perm.
      * constructor; [apply str_le_false, E|exact Hy].
Qed.

Lemma sorted_sorted (l : list string) : StronglySorted str_le (sorted l).
Proof.
  induction l as [|x l IH]; simpl.
  - constructor.
  - apply insert_sorted, IH.
Qed.

(** Two sorted arrangements of the same elements are the same list. *)
Lemma sorted_unique (l1 l2 : list string) :
  StronglySorted str_le l1 -> StronglySorted str_le l2 ->
  Permutation l1 l2 -> l1 = l2.
Proof.
  intros H1; revert l2.
  induction H1 as [|x l1 Hs1 IH Hx]; intros l2 H2 HP.
  - apply Permutation_nil in HP. congruence.
  - destruct H2 as [|y l2 Hs2 Hy].
    + apply Permutation_sym, Permutation_nil in HP. discriminate.
    + assert (x = y) as ->.
      { assert (In x (y :: l2)) as Hin1
          by (eapply Permutation_in; [exact HP|left; reflexivity]).
        assert (In y (x :: l1)) as Hin2
          by (eapply Permutation_in; [apply Permutation_sym, HP|left; reflexivity]).
        rewrite Forall_forall in Hx, Hy.
        destruct Hin1 as [->|Hin1]; [reflexivity|].
        destruct Hin2 as [->|Hin2]; [reflexivity|].
        apply str_le_antisym; [apply Hx, Hin2|apply Hy, Hin1]. }
      f_equal. apply IH; [exact Hs2|].
      eapply Permutation_cons_inv, HP.
Qed.

Lemma sorted_eq_iff_perm (l1 l2 : list string) :
  sorted l1 = sorted l2 <-> Permutation l1 l2.
Proof.
  split; intros H.
  - apply perm_trans with (sorted l1); [apply Permutation_sym, sorted_perm|].
    rewrite H. apply sorted_perm.
  - apply sorted_unique; try apply sorted_sorted.
    apply perm_trans with l1; [apply sorted_perm|].
    apply perm_trans with l2; [exact H|apply Permutation_sym, sorted_perm].
Qed.

Lemma all_str_map (l : list string) : all_str (map PStr l) = Some l.
Proof.
  induction l as [|s l IH]; simpl; [reflexivity|]. rewrite IH. reflexivity.
Qed.

Lemma all_str_inv (l : list pyval) (ss : list string) :
  all_str l = Some ss -> l = map PStr ss.
Proof.
  revert ss; induction l as [|v l IH]; intros ss; simpl.
  - intros [= <-]. reflexivity.
  - destruct v; try discriminate.
    destruct (all_str l) as [ss'|]; [|discriminate].
    intros [= <-]. simpl. f_equal. apply IH. reflexivity.
Qed.

Lemma list_eq_strs_map (l e : list string) :
  list_eq_strs (map PStr l) e = true <-> l = e.
Proof.
  revert e; induction l as [|s l IH]; intros [|t e]; simpl;
    try (split; [discriminate|congruence]); [tauto|].
  rewrite andb_true_iff, String.eqb_eq, IH.
  split; [intros [-> ->]; reflexivity|intros [= -> ->]; auto].
Qed.

Lemma list_eq_strs_nil (e : list string) : list_eq_strs [] e = true <-> e = [].
Proof. destruct e; simpl; split; congruence. Qed.

Lemma sorted_nil_inv (l : list string) : sorted l = [] -> l = [].
Proof.
  intros H. apply Permutation_nil. rewrite <- H. apply sorted_perm.
Qed.

(* ------------------------------------------------------------------ *)
(** ** The comparison of labels *)

Lemma sort_actual_strs (sorted_other : list pyval -> outcome (list pyval))
    (l : list string) :
  sort_actual sorted_other (map PStr l) = Return (map PStr (sorted l)).
Proof. unfold sort_actual, py_sorted; simpl. rewrite all_str_map. reflexivity. Qed.

Lemma labels_equal_strs (sorted_other : list pyval -> outcome (list pyval))
    (expected actual : list string) :
  labels_equal sorted_other expected (map PStr actual)
  = Return (list_eq_strs (map PStr (sorted actual)) (sorted expected)).
Proof. unfold labels_equal. rewrite sort_actual_strs. reflexivity. Qed.

(** C3.  On two sequences of str the default comparison (labels sorted)
    returns a boolean and raises nothing; it has no access to the world
    or to the output.  The boolean is true exactly when the two sorted
    sequences are equal, where the sorted sequence of [l] is the
    arrangement of the elements of [l] in which every element is [<=] the
    later ones.  So the comparison holds exactly between rearrangements:
    it ignores the order and counts the duplicates. *)
Theorem label_comparison_default (sorted_other : list pyval -> outcome (list pyval)) :
  (forall expected actual : list string,
      exists b : bool,
        labels_equal sorted_other expected (map PStr actual) = Return b
        /\ (b = true <-> sorted expected = sorted actual)
        /\ (b = true <-> Permutation expected actual))
  /\ (forall l : list string,
         StronglySorted str_le (sorted l) /\ Permutation (sorted l) l)
  /\ labels_equal sorted_other ["a"; "b"] [PStr "b"; PStr "a"] = Return true
  /\ labels_equal sorted_other ["a"; "a"] [PStr "a"] = Return false.
Proof.
  split; [|split; [|split]].
  - intros expected actual.
    exists (list_eq_strs (map PStr (sorted actual)) (sorted expected)).
    split; [apply labels_equal_strs|].
    rewrite list_eq_strs_map. split.
    + split; congruence.
    + rewrite <- sorted_eq_iff_perm. split; congruence.
  - intros l. split; [apply sorted_sorted|apply sorted_perm].
  - reflexivity.
  - reflexivity.
Qed.

(* ------------------------------------------------------------------ *)
(** ** The classification of item numbers *)

(** C5.  An item number is printed as an Issue exactly when it lies
    between the two bounds of the configuration, both included, and as a
    PR otherwise; with the bounds 1 and 15, item 10 is an Issue and item
    20 a PR. *)
Theorem classification_by_range (config : VerificationConfig) (n : Z) :
  (item_type_of config n = "Issue" <-> issue_min config <= n <= issue_max config)
  /\ (item_type_of config n = "PR" <-> ~ (issue_min config <= n <= issue_max config))
  /\ (forall repo labels, item_type_of (mkConfig repo 1 15 labels) 10 = "Issue")
  /\ (forall repo labels, item_type_of (mkConfig repo 1 15 labels) 20 = "PR").
Proof.
  unfold item_type_of, CONFIG.issue_keyword, CONFIG.pr_keyword.
  split; [|split; [|split]]; try reflexivity.
  - destruct (Z.leb_spec (issue_min config) n), (Z.leb_spec n (issue_max config));
      simpl; split; intros; try lia; try reflexivity; discriminate.
  - destruct (Z.leb_spec (issue_min config) n), (Z.leb_spec n (issue_max config));
      simpl; split; intros; try lia; try reflexivity; discriminate.
Qed.

(* ------------------------------------------------------------------ *)
(** ** The fetcher *)

Section FetcherFacts.

Variable World : Type.
Variable requests_get :
  string -> list (string * string) -> World -> (string + Response) * World.

Local Abbreviation get_github_api := (_get_github_api World requests_get).
Local Abbreviation get_item_labels := (_get_item_labels World requests_get).

(** What [_get_github_api] returns and prints, by the reply of the host. *)
Lemma get_github_api_run (endpoint : string) (headers : list (string * string))
    (org repo : string) (w : World) :
  get_github_api endpoint headers org repo w =
  match requests_get (api_url org repo endpoint) headers w with
  | (inl msg, w1) =>
      (Return (false, PNone), w1,
       [(Stderr, MsgRequestException endpoint (LibraryError msg))])
  | (inr response, w1) =>
      if (status_code response =? 200)%Z then
        match json response with
        | inr body => (Return (true, body), w1, [])
        | inl msg =>
            (Return (false, PNone), w1,
             [(Stderr, MsgRequestException endpoint (LibraryError msg))])
        end
      else if (status_code response =? 404)%Z then (Return (false, PNone), w1, [])
      else
        (Return (false, PNone), w1,
         [(Stderr, MsgApiError endpoint (status_code response));
          (Stderr, MsgResponseText (substring 0 100 (text response)))])
  end.
Proof.
  unfold _get_github_api, try_except, try_catch, bind, http_get, response_json.
  destruct (requests_get (api_url org repo endpoint) headers w) as [[msg|response] w1];
    simpl; [reflexivity|].
  change CONFIG.success_status_code with 200%Z.
  change CONFIG.not_found_status_code with 404%Z.
  destruct (status_code response =? 200)%Z.
  - destruct (json response) as [msg|body]; reflexivity.
  - destruct (status_code response =? 404)%Z; reflexivity.
Qed.

(** [_get_github_api] raises nothing. *)
Lemma get_github_api_returns (endpoint : string) (headers : list (string * string))
    (org repo : string) (w : World) :
  exists success result w1 out,
    get_github_api endpoint headers org repo w = (Return (success, result), w1, out)
    /\ forallb is_diagnostic out = true.
Proof.
  rewrite get_github_api_run.
  destruct (requests_get _ headers w) as [[msg|response] w1].
  - do 4 eexists; split; reflexivity.
  - destruct (status_code response =? 200)%Z.
    + destruct (json response); do 4 eexists; split; reflexivity.
    + destruct (status_code response =? 404)%Z; do 4 eexists; split; reflexivity.
Qed.

Lemma get_item_labels_run (n : Z) (headers : list (string * string))
    (org repo : string) (w : World) :
  get_item_labels n headers org repo w =
  match get_github_api (item_endpoint n) headers org repo w with
  | (Return (success, result), w1, out) =>
      if negb success || negb (truthy result) then (Return None, w1, out)
      else
        match label_names result with
        | Return names => (Return (Some names), w1, out)
        | Raise e => (Raise e, w1, out)
        end
  | (Raise e, w1, out) => (Raise e, w1, out)
  end.
Proof.
  unfold _get_item_labels, bind.
  destruct (get_github_api _ headers org repo w) as [[[[success result]|e] w1] out];
    [|reflexivity].
  destruct (negb success || negb (truthy result)); simpl.
  - rewrite app_nil_r. reflexivity.
  - unfold lift. destruct (label_names result); simpl; rewrite ?app_nil_r; reflexivity.
Qed.

(** A failed reply makes the fetch return [None], with diagnostics only. *)
Lemma get_item_labels_failed (n : Z) (headers : list (string * string))
    (org repo : string) (w w1 : World) (reply : string + Response) :
  requests_get (api_url org repo (item_endpoint n)) headers w = (reply, w1) ->
  failed_reply reply = true ->
  exists diag,
    get_item_labels n headers org repo w = (Return None, w1, diag)
    /\ forallb is_diagnostic diag = true.
Proof.
  intros Hget Hfail.
  rewrite get_item_labels_run, get_github_api_run, Hget.
  destruct reply as [msg|response]; simpl in Hfail.
  - eexists; split; reflexivity.
  - change CONFIG.success_status_code with 200%Z in Hfail.
    destruct (status_code response =? 200)%Z.
    + destruct (json response); [|discriminate]. eexists; split; reflexivity.
    + destruct (status_code response =? 404)%Z; eexists; split; reflexivity.
Qed.

(** A success with a decoded body: the fetch is decided by the body. *)
Lemma get_item_labels_success (n : Z) (headers : list (string * string))
    (org repo : string) (w w1 : World) (response : Response) (body : pyval) :
  requests_get (api_url org repo (item_endpoint n)) headers w = (inr response, w1) ->
  status_code response = 200%Z ->
  json response = inr body ->
  get_item_labels n headers org repo w =
  if truthy body then
    match label_names body with
    | Return names => (Return (Some names), w1, [])
    | Raise e => (Raise e, w1, [])
    end
  else (Return None, w1, []).
Proof.
  intros Hget Hst Hjson.
  rewrite get_item_labels_run, get_github_api_run, Hget, Hst, Hjson. simpl.
  destruct (truthy body); reflexivity.
Qed.

(** The events of a fetch are diagnostics, whatever it returns. *)
Lemma get_item_labels_diag (n : Z) (headers : list (string * string))
    (org repo : string) (w : World) :
  forallb is_diagnostic (snd (get_item_labels n headers org repo w)) = true.
Proof.
  rewrite get_item_labels_run.
  destruct (get_github_api_returns (item_endpoint n) headers org repo w)
    as (success & result & w1 & out & -> & Hd).
  destruct (negb success || negb (truthy result)); [exact Hd|].
  destruct (label_names result); exact Hd.
Qed.

End FetcherFacts.

(* ------------------------------------------------------------------ *)
(** ** The monad *)

Lemma bind_assoc {W A B C} (m : M W A) (f : A -> M W B) (g : B -> M W C) (w : W) :
  bind (bind m f) g w = bind m (fun a => bind (f a) g) w.
Proof.
  unfold bind.
  destruct (m w) as [[[a|e] w1] out1]; [|reflexivity].
  destruct (f a w1) as [[[b|e] w2] out2]; [|reflexivity].
  destruct (g b w2) as [[r w3] out3].
  rewrite app_assoc. reflexivity.
Qed.

Lemma bind_ext {W A B} (m : M W A) (k1 k2 : A -> M W B) (w : W) :
  (forall a w1, k1 a w1 = k2 a w1) -> bind m k1 w = bind m k2 w.
Proof.
  intros H. unfold bind.
  destruct (m w) as [[[a|e] w1] out1]; [|reflexivity].
  rewrite H. reflexivity.
Qed.

Lemma bind_prepend {W A B} (m : M W A) (k : A -> M W B) (w w1 : W)
    (a : A) (out : list event) :
  m w = (Return a, w1, out) -> bind m k w = prepend out (k a w1).
Proof. unfold bind, prepend. intros ->. reflexivity. Qed.

Lemma item_results_app (out1 out2 : list event) :
  item_results (out1 ++ out2) = item_results out1 ++ item_results out2.
Proof. apply flat_map_app. Qed.

Lemma item_results_diag (diag : list event) :
  forallb is_diagnostic diag = true -> item_results diag = [].
Proof.
  induction diag as [|[s m] diag IH]; simpl; [reflexivity|].
  rewrite andb_true_iff. intros [Hd Hrest].
  rewrite (IH Hrest).
  destruct s, m; simpl in *; try discriminate; reflexivity.
Qed.

(* ------------------------------------------------------------------ *)
(** ** The loop *)

Section LoopFacts.

Variable World : Type.
Variable requests_get :
  string -> list (string * string) -> World -> (string + Response) * World.
Variable sorted_other : list pyval -> outcome (list pyval).

Local Abbreviation get_item_labels := (_get_item_labels World requests_get).
Local Abbreviation verify_item' := (verify_item World requests_get sorted_other).
Local Abbreviation verify_items' := (verify_items World requests_get sorted_other).
Local Abbreviation run_verification' :=
  (run_verification World requests_get sorted_other).

(** One turn of the loop, by what the fetch and the comparison do. *)
Lemma verify_item_run (config : VerificationConfig) (headers : list (string * string))
    (org : string) (n : Z) (expected : list string) (all_passed : bool) (w : World) :
  let t := item_type_of config n in
  verify_item' config headers org n expected all_passed w =
  match get_item_labels n headers org (target_repo config) w with
  | (Return None, w1, diag) =>
      (Return false, w1, item_events t n diag [(Stderr, MsgFetchFailed t n)])
  | (Return (Some actual_labels), w1, diag) =>
      match sort_actual sorted_other actual_labels with
      | Return actual_sorted =>
          if list_eq_strs actual_sorted (sort_expected expected)
          then (Return all_passed, w1,
                item_events t n diag [(Stdout, MsgMatch t n actual_sorted)])
          else (Return false, w1,
                item_events t n diag
                  [(Stderr, MsgMismatch t n);
                   (Stderr, MsgExpected (sort_expected expected));
                   (Stderr, MsgActual actual_sorted)])
      | Raise e => (Raise e, w1, item_events t n diag [])
      end
  | (Raise e, w1, diag) => (Raise e, w1, (Stdout, MsgChecking t n) :: diag)
  end.
Proof.
  intros t. unfold verify_item, bind, print, item_events. fold t. simpl.
  destruct (get_item_labels n headers org (target_repo config) w)
    as [[[[actual_labels|]|e] w1] diag]; simpl; try reflexivity.
  unfold lift.
  destruct (sort_actual sorted_other actual_labels) as [actual_sorted|e]; simpl.
  - destruct (list_eq_strs actual_sorted (sort_expected expected)); simpl;
      rewrite ?app_nil_r; reflexivity.
  - rewrite ?app_nil_r. reflexivity.
Qed.

Lemma item_results_item_events (t : string) (n : Z) (diag verdict : list event) :
  forallb is_diagnostic diag = true ->
  item_results (item_events t n diag verdict) = item_results verdict.
Proof.
  intros Hd. unfold item_events.
  change ((Stdout, MsgChecking t n) :: diag ++ verdict)
    with ([(Stdout, MsgChecking t n)] ++ diag ++ verdict).
  rewrite !item_results_app, (item_results_diag diag Hd). reflexivity.
Qed.

(** A turn that returns has printed one verdict, and [all_passed] stays
    true only if it was true and the verdict is a pass; a turn that raises
    has printed none. *)
Lemma verify_item_verdict (config : VerificationConfig) (headers : list (string * string))
    (org : string) (n : Z) (expected : list string) (all_passed : bool) (w : World) :
  match verify_item' config headers org n expected all_passed w with
  | (Return b, _, out) =>
      exists r,
        item_results out = [r]
        /\ result_key r = (n, item_type_of config n)
        /\ b = all_passed && passed r
  | (Raise _, _, out) => item_results out = []
  end.
Proof.
  rewrite verify_item_run.
  pose proof (get_item_labels_diag World requests_get n headers org
                (target_repo config) w) as Hd.
  destruct (get_item_labels n headers org (target_repo config) w)
    as [[[[actual_labels|]|e] w1] diag]; simpl in Hd.
  - destruct (sort_actual sorted_other actual_labels) as [actual_sorted|e].
    + destruct (list_eq_strs actual_sorted (sort_expected expected));
        rewrite (item_results_item_events _ _ _ _ Hd); simpl.
      * eexists. split; [reflexivity|]. split; [reflexivity|].
        unfold passed; simpl. rewrite andb_true_r. reflexivity.
      * eexists. split; [reflexivity|]. split; [reflexivity|].
        unfold passed; simpl. rewrite andb_false_r. reflexivity.
    + rewrite (item_results_item_events _ _ _ _ Hd). reflexivity.
  - rewrite (item_results_item_events _ _ _ _ Hd); simpl.
    eexists. split; [reflexivity|]. split; [reflexivity|].
    unfold passed; simpl. rewrite andb_false_r. reflexivity.
  - change ((Stdout, MsgChecking (item_type_of config n) n) :: diag)
      with ([(Stdout, MsgChecking (item_type_of config n) n)] ++ diag).
    rewrite item_results_app, (item_results_diag diag Hd). reflexivity.
Qed.

(** The loop that returns has printed the verdicts of all the entries, in
    their order; the loop that raises, those of a proper prefix. *)
Lemma verify_items_results (config : VerificationConfig)
    (headers : list (string * string)) (org : string)
    (items : list (Z * list string)) :
  forall (all_passed : bool) (w : World),
    match verify_items' config headers org items all_passed w with
    | (Return b, _, out) =>
        map result_key (item_results out) = item_keys config items
        /\ b = all_passed && forallb passed (item_results out)
    | (Raise _, _, out) =>
        exists k, (k < List.length items)%nat
                  /\ map result_key (item_results out) = firstn k (item_keys config items)
    end.
Proof.
  induction items as [|[n expected] rest IH]; intros all_passed w.
  - simpl. rewrite andb_true_r. split; reflexivity.
  - simpl. unfold bind.
    pose proof (verify_item_verdict config headers org n expected all_passed w) as Hv.
    destruct (verify_item' config headers org n expected all_passed w)
      as [[[b1|e] w1] out1].
    + destruct Hv as (r & Hres & Hkey & ->).
      specialize (IH (all_passed && passed r) w1).
      destruct (verify_items' config headers org rest (all_passed && passed r) w1)
        as [[[b2|e] w2] out2]; rewrite item_results_app, Hres; simpl.
      * destruct IH as [Hkeys ->]. split.
        -- rewrite Hkey. f_equal. exact Hkeys.
        -- rewrite andb_assoc. reflexivity.
      * destruct IH as (k & Hk & Hkeys). exists (S k). split; [lia|].
        simpl. rewrite Hkey. f_equal. exact Hkeys.
    + exists 0%nat. split; [simpl; lia|]. rewrite Hv. reflexivity.
Qed.

Lemma verify_items_app (config : VerificationConfig) (headers : list (string * string))
    (org : string) (items1 items2 : list (Z * list string)) :
  forall (all_passed : bool) (w : World),
    verify_items' config headers org (items1 ++ items2) all_passed w
    = bind (verify_items' config headers org items1 all_passed)
        (fun b => verify_items' config headers org items2 b) w.
Proof.
  induction items1 as [|[n expected] rest IH]; intros all_passed w.
  - simpl. unfold bind, ret.
    destruct (verify_items' config headers org items2 all_passed w) as [[r w1] out].
    reflexivity.
  - simpl. rewrite bind_assoc. apply bind_ext. intros b w1. apply IH.
Qed.

Lemma verify_items_false (config : VerificationConfig) (headers : list (string * string))
    (org : string) (items : list (Z * list string)) (w w1 : World)
    (b : bool) (out : list event) :
  verify_items' config headers org items false w = (Return b, w1, out) -> b = false.
Proof.
  intros H. pose proof (verify_items_results config headers org items false w) as Hr.
  rewrite H in Hr. destruct Hr as [_ ->]. reflexivity.
Qed.

(** The run is the loop between the header and the footer. *)
Lemma run_verification_run (config : VerificationConfig) (token org : string) (w : World) :
  run_verification' config token org w =
  match verify_items' config (get_github_headers token) org
          (expected_labels config) true w with
  | (Return b, w1, out) =>
      (Return b, w1, header_events config org ++ out ++ footer_events b)
  | (Raise e, w1, out) => (Raise e, w1, header_events config org ++ out)
  end.
Proof.
  unfold run_verification, bind, print, header_events, footer_events. simpl.
  destruct (verify_items' config (get_github_headers token) org
              (expected_labels config) true w) as [[[b|e] w1] out]; simpl.
  - destruct b; simpl; reflexivity.
  - reflexivity.
Qed.

Lemma item_results_run (config : VerificationConfig) (org : string)
    (out : list event) (b : bool) :
  item_results (header_events config org ++ out ++ footer_events b) = item_results out.
Proof.
  rewrite !item_results_app. destruct b; simpl; rewrite app_nil_r; reflexivity.
Qed.

(** *** A host that honours the interface *)

Lemma comprehension_label_objects (labels : list pyval) :
  forallb is_label_object labels = true ->
  exists names : list string,
    comprehension (fun label => py_getitem label "name") labels
    = Return (map PStr names).
Proof.
  induction labels as [|label labels IH]; simpl.
  - intros _. exists []. reflexivity.
  - rewrite andb_true_iff. intros [Hl Hrest].
    destruct (IH Hrest) as [names ->].
    destruct label as [| | | | |l|kvs]; simpl in Hl; try discriminate.
    simpl. destruct (dict_lookup "name" kvs) as [[| | | |s| |]|]; try discriminate.
    exists (s :: names). reflexivity.
Qed.

Lemma label_names_benign (body : pyval) :
  benign_body body = true -> truthy body = true ->
  exists names : list string, label_names body = Return (map PStr names).
Proof.
  unfold benign_body. intros Hb Ht. rewrite Ht in Hb. simpl in Hb.
  destruct body as [| | | | |l|kvs]; try discriminate.
  unfold label_names, py_get. simpl.
  destruct (dict_lookup "labels" kvs) as [[| | | | |labels|]|]; try discriminate.
  - simpl. apply comprehension_label_objects, Hb.
  - exists []. reflexivity.
Qed.

Lemma get_item_labels_benign (Inv : World -> Prop) (n : Z)
    (headers : list (string * string)) (org repo : string) (w : World) :
  honours requests_get Inv -> Inv w ->
  exists r w1 diag,
    get_item_labels n headers org repo w = (Return r, w1, diag)
    /\ Inv w1
    /\ (forall l, r = Some l -> exists names : list string, l = map PStr names).
Proof.
  intros Hh HI.
  destruct (Hh (api_url org repo (item_endpoint n)) headers w HI) as [Hb HI1].
  rewrite get_item_labels_run, get_github_api_run.
  destruct (requests_get (api_url org repo (item_endpoint n)) headers w)
    as [[msg|response] w1]; simpl in Hb, HI1.
  - do 3 eexists. split; [reflexivity|]. split; [exact HI1|discriminate].
  - change CONFIG.success_status_code with 200%Z in Hb.
    destruct (status_code response =? 200)%Z.
    + destruct (json response) as [msg|body].
      * do 3 eexists. split; [reflexivity|]. split; [exact HI1|discriminate].
      * simpl. destruct (truthy body) eqn:Ht; simpl.
        -- destruct (label_names_benign body Hb Ht) as [names ->].
           do 3 eexists. split; [reflexivity|]. split; [exact HI1|].
           intros l [= <-]. exists names. reflexivity.
        -- do 3 eexists. split; [reflexivity|]. split; [exact HI1|discriminate].
    + destruct (status_code response =? 404)%Z;
        do 3 eexists; (split; [reflexivity|]); (split; [exact HI1|discriminate]).
Qed.

Lemma verify_item_returns (Inv : World -> Prop) (config : VerificationConfig)
    (headers : list (string * string)) (org : string) (n : Z)
    (expected : list string) (all_passed : bool) (w : World) :
  honours requests_get Inv -> Inv w ->
  exists b w1 out,
    verify_item' config headers org n expected all_passed w = (Return b, w1, out)
    /\ Inv w1.
Proof.
  intros Hh HI. rewrite verify_item_run.
  destruct (get_item_labels_benign Inv n headers org (target_repo config) w Hh HI)
    as (r & w1 & diag & -> & HI1 & Hstr).
  destruct r as [actual_labels|].
  - destruct (Hstr actual_labels eq_refl) as [names ->].
    rewrite sort_actual_strs.
    destruct (list_eq_strs (map PStr (sorted names)) (sort_expected expected));
      do 3 eexists; split; try reflexivity; exact HI1.
  - do 3 eexists; split; [reflexivity|exact HI1].
Qed.

Lemma verify_items_returns (Inv : World -> Prop) (config : VerificationConfig)
    (headers : list (string * string)) (org : string)
    (items : list (Z * list string)) :
  honours requests_get Inv ->
  forall (all_passed : bool) (w : World),
    Inv w ->
    exists b w1 out,
      verify_items' config headers org items all_passed w = (Return b, w1, out)
      /\ Inv w1.
Proof.
  intros Hh. induction items as [|[n expected] rest IH]; intros all_passed w HI.
  - exists all_passed, w, []. split; [reflexivity|exact HI].
  - simpl.
    destruct (verify_item_returns Inv config headers org n expected all_passed w Hh HI)
      as (b1 & w1 & out1 & Hrun & HI1).
    rewrite (bind_prepend _ _ _ _ _ _ Hrun).
    destruct (IH b1 w1 HI1) as (b2 & w2 & out2 & -> & HI2).
    do 3 eexists. split; [reflexivity|exact HI2].
Qed.

(* ------------------------------------------------------------------ *)
(** ** The run *)

(** C1.  When [run_verification] returns, the boolean it returns is the
    conjunction of the verdicts it printed, and it printed one verdict for
    each entry of [expected_labels]; over an empty [expected_labels] it
    returns true, without a request. *)
Theorem overall_result_is_conjunction (config : VerificationConfig)
    (token org : string) (w : World) :
  (forall b w1 out,
      run_verification' config token org w = (Return b, w1, out) ->
      b = forallb passed (item_results out)
      /\ map result_key (item_results out) = item_keys config (expected_labels config))
  /\ (expected_labels config = [] ->
      run_verification' config token org w
      = (Return true, w, header_events config org ++ footer_events true)).
Proof.
  split.
  - intros b w1 out. rewrite run_verification_run.
    pose proof (verify_items_results config (get_github_headers token) org
                  (expected_labels config) true w) as Hr.
    destruct (verify_items' config (get_github_headers token) org
                (expected_labels config) true w) as [[[b'|e] w'] out']; [|discriminate].
    intros Heq.
    assert (b = b' /\ out = header_events config org ++ out' ++ footer_events b')
      as [-> ->] by (inversion Heq; split; reflexivity).
    rewrite item_results_run.
    destruct Hr as [Hkeys Hb]. split; [exact Hb|exact Hkeys].
  - intros Hnil. rewrite run_verification_run, Hnil. reflexivity.
Qed.

(** Against a host that honours the interface the run returns, and the
    verdicts it printed are those of the entries of [expected_labels],
    one for each entry and in the order of the mapping. *)
Lemma one_result_per_entry (Inv : World -> Prop) (config : VerificationConfig)
    (token org : string) (w : World) :
  honours requests_get Inv -> Inv w ->
  exists b w1 out,
    run_verification' config token org w = (Return b, w1, out)
    /\ map result_key (item_results out) = item_keys config (expected_labels config)
    /\ List.length (item_results out) = List.length (expected_labels config).
Proof.
  intros Hh HI. rewrite run_verification_run.
  destruct (verify_items_returns Inv config (get_github_headers token) org
              (expected_labels config) Hh true w HI) as (b & w1 & out & Hrun & _).
  pose proof (verify_items_results config (get_github_headers token) org
                (expected_labels config) true w) as Hr.
  rewrite Hrun in Hr |- *. lazy beta iota. destruct Hr as [Hkeys _].
  do 3 eexists. split; [reflexivity|]. rewrite item_results_run.
  split; [exact Hkeys|].
  rewrite <- (length_map result_key), Hkeys. unfold item_keys. apply length_map.
Qed.

(** What a turn of the loop does with the labels it fetched is what
    [labels_equal] returns for them. *)
Lemma verify_item_found (config : VerificationConfig) (headers : list (string * string))
    (org : string) (n : Z) (expected : list string) (all_passed : bool)
    (w w1 : World) (diag : list event) (actual_labels : list pyval) (p : bool) :
  get_item_labels n headers org (target_repo config) w
    = (Return (Some actual_labels), w1, diag) ->
  labels_equal sorted_other expected actual_labels = Return p ->
  exists out,
    verify_item' config headers org n expected all_passed w
    = (Return (all_passed && p), w1, out)
    /\ map outcome_of (item_results out) = [if p then Matched else Mismatched].
Proof.
  intros Hfetch Heq. rewrite verify_item_run, Hfetch.
  pose proof (get_item_labels_diag World requests_get n headers org
                (target_repo config) w) as Hd.
  rewrite Hfetch in Hd. simpl in Hd.
  unfold labels_equal in Heq.
  destruct (sort_actual sorted_other actual_labels) as [actual_sorted|e];
    [|discriminate].
  simpl in Heq. injection Heq as <-.
  destruct (list_eq_strs actual_sorted (sort_expected expected)); eexists;
    rewrite ?andb_true_r, ?andb_false_r; (split; [reflexivity|]);
    rewrite (item_results_item_events _ _ _ _ Hd); reflexivity.
Qed.

(** C2.  Let the entries before an item have been processed, and let the
    fetch of the item return no list of labels, as it does for a
    not-found status, for any other failure status and for a failure of
    the transport.  Then the item is printed as failed, with no labels,
    and the loop goes on with the entries after it, from the world the
    request left, with [all_passed] false; the run ends as that loop
    ends, and if it returns it returns false. *)
Theorem fetch_failure_does_not_abort (config : VerificationConfig)
    (token org : string) (before after : list (Z * list string)) (n : Z)
    (expected : list string) (w w0 w1 : World) (b0 : bool) (out0 diag : list event) :
  expected_labels config = before ++ (n, expected) :: after ->
  verify_items' config (get_github_headers token) org before true w
    = (Return b0, w0, out0) ->
  get_item_labels n (get_github_headers token) org (target_repo config) w0
    = (Return None, w1, diag) ->
  let t := item_type_of config n in
  let failed := item_events t n diag [(Stderr, MsgFetchFailed t n)] in
  item_results failed = [mkItemResult n t FetchFailed]
  /\ verify_items' config (get_github_headers token) org
       (expected_labels config) true w
     = prepend (out0 ++ failed)
         (verify_items' config (get_github_headers token) org after false w1)
  /\ run_verification' config token org w
     = match verify_items' config (get_github_headers token) org after false w1 with
       | (Return _, w2, out) =>
           (Return false, w2,
            header_events config org ++ ((out0 ++ failed) ++ out) ++ footer_events false)
       | (Raise e, w2, out) =>
           (Raise e, w2, header_events config org ++ (out0 ++ failed) ++ out)
       end.
Proof.
  intros Hcfg Hbefore Hfetch t failed.
  pose proof (get_item_labels_diag World requests_get n (get_github_headers token)
                org (target_repo config) w0) as Hd.
  rewrite Hfetch in Hd. simpl in Hd.
  assert (verify_items' config (get_github_headers token) org
            (expected_labels config) true w
          = prepend (out0 ++ failed)
              (verify_items' config (get_github_headers token) org after false w1))
    as Hloop.
  { rewrite Hcfg, verify_items_app, (bind_prepend _ _ _ _ _ _ Hbefore). simpl.
    assert (verify_item' config (get_github_headers token) org n expected b0 w0
            = (Return false, w1, failed))
      as Hitem by (rewrite verify_item_run, Hfetch; reflexivity).
    rewrite (bind_prepend _ _ _ _ _ _ Hitem). unfold prepend.
    destruct (verify_items' config (get_github_headers token) org after false w1)
      as [[r w2] out]. rewrite app_assoc. reflexivity. }
  split; [|split].
  - unfold failed. rewrite (item_results_item_events _ _ _ _ Hd). reflexivity.
  - exact Hloop.
  - rewrite run_verification_run, Hloop.
    pose proof (verify_items_false config (get_github_headers token) org after w1) as Hf.
    destruct (verify_items' config (get_github_headers token) org after false w1)
      as [[[b|e] w2] out]; simpl; [|reflexivity].
    rewrite (Hf w2 b out eq_refl). reflexivity.
Qed.

(* ------------------------------------------------------------------ *)
(** ** The outcomes of a fetch *)

Lemma comprehension_has_name (labels names : list pyval) :
  Forall2 has_name labels names ->
  comprehension (fun label => py_getitem label "name") labels = Return names.
Proof.
  induction 1 as [|label name labels names (kvs & -> & Hname) _ IH]; simpl.
  - reflexivity.
  - rewrite Hname, IH. reflexivity.
Qed.

(** C4, as the code has it.  The fetch of an item returns the list of the
    label names on a success status whose body is an object with an array
    of named label objects under [labels].  On a not-found status, on any
    other status and on a failure of the transport it returns the same
    value, [None]; the last two also print a diagnostic on the error
    stream, the first prints nothing. *)
Theorem fetch_outcomes (n : Z) (headers : list (string * string)) (org repo : string)
    (w w1 : World) (reply : string + Response) :
  requests_get (api_url org repo (item_endpoint n)) headers w = (reply, w1) ->
  match reply with
  | inl msg =>
      get_item_labels n headers org repo w
      = (Return None, w1,
         [(Stderr, MsgRequestException (item_endpoint n) (LibraryError msg))])
  | inr response =>
      if (status_code response =? 200)%Z then
        forall kvs labels names,
          json response = inr (PDict kvs) ->
          dict_lookup "labels" kvs = Some (PList labels) ->
          Forall2 has_name labels names ->
          get_item_labels n headers org repo w = (Return (Some names), w1, [])
      else if (status_code response =? 404)%Z then
        get_item_labels n headers org repo w = (Return None, w1, [])
      else
        get_item_labels n headers org repo w
        = (Return None, w1,
           [(Stderr, MsgApiError (item_endpoint n) (status_code response));
            (Stderr, MsgResponseText (substring 0 100 (text response)))])
  end.
Proof.
  intros Hget. rewrite get_item_labels_run, get_github_api_run, Hget.
  destruct reply as [msg|response]; [reflexivity|].
  destruct (status_code response =? 200)%Z.
  - intros kvs labels names -> Hlabels Hnames.
    assert (truthy (PDict kvs) = true) as ->
      by (destruct kvs; [discriminate Hlabels|reflexivity]).
    simpl. unfold label_names, py_get. rewrite Hlabels. simpl.
    rewrite (comprehension_has_name _ _ Hnames). reflexivity.
  - destruct (status_code response =? 404)%Z; reflexivity.
Qed.

(** C9.  A success status with a falsy body makes the fetch return
    [None] with nothing printed, and the item fail with the line of a
    fetch failure.  A not-found reply gives the same: the same value and
    the same lines, whatever world its request leaves; when it leaves the
    same world the two fetches, and the two turns of the loop, are
    equal. *)
Theorem falsy_body_is_fetch_failure (config : VerificationConfig)
    (headers : list (string * string)) (org : string) (n : Z)
    (expected : list string) (all_passed : bool) (w w1 : World)
    (response : Response) (body : pyval) :
  requests_get (api_url org (target_repo config) (item_endpoint n)) headers w
    = (inr response, w1) ->
  status_code response = 200%Z ->
  json response = inr body ->
  truthy body = false ->
  get_item_labels n headers org (target_repo config) w = (Return None, w1, [])
  /\ verify_item' config headers org n expected all_passed w
     = (Return false, w1,
        [(Stdout, MsgChecking (item_type_of config n) n);
         (Stderr, MsgFetchFailed (item_type_of config n) n)])
  /\ (forall (w' w1' : World) (response' : Response),
         requests_get (api_url org (target_repo config) (item_endpoint n)) headers w'
           = (inr response', w1') ->
         status_code response' = 404%Z ->
         get_item_labels n headers org (target_repo config) w'
           = (Return None, w1', [])
         /\ verify_item' config headers org n expected all_passed w'
            = (Return false, w1',
               [(Stdout, MsgChecking (item_type_of config n) n);
                (Stderr, MsgFetchFailed (item_type_of config n) n)])
         /\ (w1' = w1 ->
             get_item_labels n headers org (target_repo config) w
               = get_item_labels n headers org (target_repo config) w'
             /\ verify_item' config headers org n expected all_passed w
                = verify_item' config headers org n expected all_passed w')).
Proof.
  intros Hget Hst Hjson Hfalsy.
  assert (get_item_labels n headers org (target_repo config) w = (Return None, w1, []))
    as H1.
  { rewrite (get_item_labels_success World requests_get _ _ _ _ _ _ _ _ Hget Hst Hjson).
    rewrite Hfalsy. reflexivity. }
  assert (verify_item' config headers org n expected all_passed w
          = (Return false, w1,
             [(Stdout, MsgChecking (item_type_of config n) n);
              (Stderr, MsgFetchFailed (item_type_of config n) n)])) as H2
    by (rewrite verify_item_run, H1; reflexivity).
  split; [exact H1|]. split; [exact H2|].
  intros w' w1' response' Hget' Hst'.
  assert (get_item_labels n headers org (target_repo config) w'
          = (Return None, w1', [])) as H3
    by (rewrite get_item_labels_run, get_github_api_run, Hget', Hst'; reflexivity).
  assert (verify_item' config headers org n expected all_passed w'
          = (Return false, w1',
             [(Stdout, MsgChecking (item_type_of config n) n);
              (Stderr, MsgFetchFailed (item_type_of config n) n)])) as H4
    by (rewrite verify_item_run, H3; reflexivity).
  split; [exact H3|]. split; [exact H4|].
  intros ->. rewrite H1, H2, H3, H4. split; reflexivity.
Qed.

(** C10.  A success status with a non-empty object that has no [labels]
    key makes the fetch return the empty list; the item then passes
    exactly when no label is expected for it. *)
Theorem missing_labels_key_is_empty_list (config : VerificationConfig)
    (headers : list (string * string)) (org : string) (n : Z)
    (expected : list string) (all_passed : bool) (w w1 : World)
    (response : Response) (kvs : list (pyval * pyval)) :
  requests_get (api_url org (target_repo config) (item_endpoint n)) headers w
    = (inr response, w1) ->
  status_code response = 200%Z ->
  json response = inr (PDict kvs) ->
  truthy (PDict kvs) = true ->
  dict_lookup "labels" kvs = None ->
  get_item_labels n headers org (target_repo config) w = (Return (Some []), w1, [])
  /\ exists p : bool,
       (p = true <-> expected = [])
       /\ verify_item' config headers org n expected all_passed w
          = (Return (all_passed && p), w1,
             item_events (item_type_of config n) n []
               (if p
                then [(Stdout, MsgMatch (item_type_of config n) n [])]
                else [(Stderr, MsgMismatch (item_type_of config n) n);
                      (Stderr, MsgExpected (sorted expected));
                      (Stderr, MsgActual [])])).
Proof.
  intros Hget Hst Hjson Htruthy Hlabels.
  assert (get_item_labels n headers org (target_repo config) w
          = (Return (Some []), w1, [])) as H1.
  { rewrite (get_item_labels_success World requests_get _ _ _ _ _ _ _ _ Hget Hst Hjson).
    rewrite Htruthy. unfold label_names, py_get. rewrite Hlabels. reflexivity. }
  split; [exact H1|].
  exists (list_eq_strs [] (sorted expected)). split.
  - rewrite list_eq_strs_nil. split; [apply sorted_nil_inv|intros ->; reflexivity].
  - rewrite verify_item_run, H1.
    change (sort_actual sorted_other []) with (Return (@nil pyval)).
    change (sort_expected expected) with (sorted expected).
    lazy beta iota.
    destruct (list_eq_strs [] (sorted expected)).
    + rewrite andb_true_r. reflexivity.
    + rewrite andb_false_r. reflexivity.
Qed.

End LoopFacts.

(* ------------------------------------------------------------------ *)
(** ** Runs against a scripted host *)

Lemma scripted_honours :
  honours scripted_get (fun w : Script => forallb benign_reply w = true).
Proof.
  intros url headers [|reply rest] HI; simpl.
  - split; reflexivity.
  - simpl in HI. apply andb_true_iff in HI. exact HI.
Qed.

Lemma overall_result_is_conjunction_witness :
  let run := run_verification Script scripted_get sorted_raises
               scenario_config "token" "org" scenario_script in
  fst (fst run) = Return false
  /\ false = forallb passed (item_results (snd run))
  /\ map result_key (item_results (snd run))
     = item_keys scenario_config (expected_labels scenario_config).
Proof.
  split; [reflexivity|].
  apply (proj1 (overall_result_is_conjunction Script scripted_get sorted_raises
                  scenario_config "token" "org" scenario_script) false []).
  reflexivity.
Defined.

Lemma one_result_per_entry_witness :
  exists b w1 out,
    run_verification Script scripted_get sorted_raises gap_config "token" "org" gap_script
    = (Return b, w1, out)
    /\ map result_key (item_results out) = [ (1, "Issue"); (2, "Issue"); (20, "PR") ]
    /\ List.length (item_results out) = 3%nat.
Proof.
  apply (one_result_per_entry Script scripted_get sorted_raises
           (fun w => forallb benign_reply w = true) gap_config "token" "org" gap_script).
  - exact scripted_honours.
  - reflexivity.
Defined.

Lemma fetch_failure_does_not_abort_witness :
  let failed := item_events "Issue" 2 [] [(Stderr, MsgFetchFailed "Issue" 2)] in
  let first := [ (Stdout, MsgChecking "Issue" 1);
                 (Stdout, MsgMatch "Issue" 1 [PStr "bug"]) ] in
  let rest := verify_items Script scripted_get sorted_raises gap_config
                (get_github_headers "token") "org" [ (20, ["docs"; "api"]) ] false
                [ inr (labels_response ["api"; "docs"]) ] in
  item_results failed = [mkItemResult 2 "Issue" FetchFailed]
  /\ verify_items Script scripted_get sorted_raises gap_config
       (get_github_headers "token") "org" (expected_labels gap_config) true gap_script
     = prepend (first ++ failed) rest
  /\ run_verification Script scripted_get sorted_raises gap_config "token" "org"
       gap_script
     = match rest with
       | (Return _, w2, out) =>
           (Return false, w2,
            header_events gap_config "org" ++ ((first ++ failed) ++ out)
              ++ footer_events false)
       | (Raise e, w2, out) =>
           (Raise e, w2, header_events gap_config "org" ++ (first ++ failed) ++ out)
       end.
Proof.
  apply (fetch_failure_does_not_abort Script scripted_get sorted_raises gap_config
           "token" "org" [ (1, ["bug"]) ] [ (20, ["docs"; "api"]) ] 2 ["enhancement"]
           gap_script
           [ inr (status_response 404 "Not Found"); inr (labels_response ["api"; "docs"]) ]
           [ inr (labels_response ["api"; "docs"]) ]
           true
           [ (Stdout, MsgChecking "Issue" 1); (Stdout, MsgMatch "Issue" 1 [PStr "bug"]) ]
           []);
    reflexivity.
Defined.

Lemma fetch_outcomes_witness :
  _get_item_labels Script scripted_get 1 (get_github_headers "token") "org" "demo"
    [ inr (labels_response ["bug"; "api"]) ]
  = (Return (Some [PStr "bug"; PStr "api"]), [], []).
Proof.
  apply (fetch_outcomes Script scripted_get 1 (get_github_headers "token") "org" "demo"
           [ inr (labels_response ["bug"; "api"]) ] []
           (inr (labels_response ["bug"; "api"])) eq_refl
           [ (PStr "number", PInt 1);
             (PStr "labels",
              PList [ PDict [(PStr "id", PInt 7); (PStr "name", PStr "bug")];
                      PDict [(PStr "id", PInt 7); (PStr "name", PStr "api")] ]) ]
           [ PDict [(PStr "id", PInt 7); (PStr "name", PStr "bug")];
             PDict [(PStr "id", PInt 7); (PStr "name", PStr "api")] ]
           [PStr "bug"; PStr "api"]).
  - reflexivity.
  - reflexivity.
  - repeat constructor; eexists; split; reflexivity.
Defined.

Lemma falsy_body_is_fetch_failure_witness :
  let fetch w := _get_item_labels Script scripted_get 3 (get_github_headers "token")
                   "org" "demo" w in
  let turn w := verify_item Script scripted_get sorted_raises gap_config
                  (get_github_headers "token") "org" 3 ["bug"] true w in
  fetch [inr empty_object_response] = (Return None, [], [])
  /\ turn [inr empty_object_response]
     = (Return false, [],
        [ (Stdout, MsgChecking "Issue" 3); (Stderr, MsgFetchFailed "Issue" 3) ])
  /\ fetch [inr empty_object_response] = fetch [inr (status_response 404 "Not Found")]
  /\ turn [inr empty_object_response] = turn [inr (status_response 404 "Not Found")].
Proof.
  intros fetch turn.
  destruct (falsy_body_is_fetch_failure Script scripted_get sorted_raises gap_config
              (get_github_headers "token") "org" 3 ["bug"] true
              [inr empty_object_response] [] empty_object_response (PDict [])
              eq_refl eq_refl eq_refl eq_refl) as (H1 & H2 & H3).
  destruct (H3 [inr (status_response 404 "Not Found")] []
              (status_response 404 "Not Found") eq_refl eq_refl) as (_ & _ & H4).
  destruct (H4 eq_refl) as [H5 H6].
  split; [exact H1|]. split; [exact H2|]. split; [exact H5|exact H6].
Defined.

Lemma missing_labels_key_is_empty_list_witness :
  _get_item_labels Script scripted_get 3 (get_github_headers "token") "org" "demo"
    [inr unlabelled_response]
  = (Return (Some []), [], [])
  /\ exists p : bool,
       (p = true <-> ["bug"] = [])
       /\ verify_item Script scripted_get sorted_raises gap_config
            (get_github_headers "token") "org" 3 ["bug"] true [inr unlabelled_response]
          = (Return (true && p), [],
             item_events "Issue" 3 []
               (if p
                then [(Stdout, MsgMatch "Issue" 3 [])]
                else [(Stderr, MsgMismatch "Issue" 3);
                      (Stderr, MsgExpected ["bug"]);
                      (Stderr, MsgActual [])])).
Proof.
  apply (missing_labels_key_is_empty_list Script scripted_get sorted_raises gap_config
           (get_github_headers "token") "org" 3 ["bug"] true
           [inr unlabelled_response] [] unlabelled_response
           [ (PStr "number", PInt 3) ]);
    reflexivity.
Defined.

(** The value a fetch returns tells a missing item from a server error
    no more than [_get_github_api] does: both are [None], both are
    [(False, None)].  A success status with an empty object gives [None]
    as well, not a list of labels. *)
Lemma not_found_and_error_same_value :
  let fetch reply :=
    fst (fst (_get_item_labels Script scripted_get 7 (get_github_headers "token")
                "org" "demo" [reply])) in
  let call reply :=
    fst (fst (_get_github_api Script scripted_get "issues/7" (get_github_headers "token")
                "org" "demo" [reply])) in
  ~ (fetch (inr (status_response 404 "Not Found"))
     <> fetch (inr (status_response 500 "Internal Server Error")))
  /\ ~ (fetch (inr (status_response 404 "Not Found")) <> fetch (inl "timed out"))
  /\ ~ (call (inr (status_response 404 "Not Found"))
        <> call (inr (status_response 500 "Internal Server Error")))
  /\ ~ (fetch (inr empty_object_response)
        <> fetch (inr (status_response 404 "Not Found"))).
Proof.
  repeat split; intros H; apply H; reflexivity.
Qed.

(** C6, at a success whose label object has no [name]: the fetch raises
    [KeyError], and so does the run, after the announcement of the item. *)
Theorem nameless_label_raises :
  _get_item_labels Script scripted_get 1 (get_github_headers "token") "org" "demo"
    [inr nameless_response]
  = (Raise (KeyError "name"), [], [])
  /\ run_verification Script scripted_get sorted_raises scenario_config "token" "org"
       [inr nameless_response; inr (labels_response ["enhancement"])]
     = (Raise (KeyError "name"), [inr (labels_response ["enhancement"])],
        header_events scenario_config "org" ++ [(Stdout, MsgChecking "Issue" 1)]).
Proof. split; reflexivity. Qed.

(** C8, on the code as it is.  A run that returns has printed one verdict
    for each entry of [expected_labels], in the order of the mapping; a
    run that an exception ends has printed the verdicts of fewer entries,
    those of a beginning of the mapping.  So it is at a success whose
    label object has no [name], answering the request for the first of
    two entries: the run raises [KeyError] with no verdict printed for
    either entry, and the reply for the second entry is never asked
    for. *)
Theorem entries_skipped_after_exception :
  (forall (World : Type)
          (requests_get :
             string -> list (string * string) -> World -> (string + Response) * World)
          (sorted_other : list pyval -> outcome (list pyval))
          (config : VerificationConfig) (token org : string) (w : World),
      match run_verification World requests_get sorted_other config token org w with
      | (Return _, _, out) =>
          map result_key (item_results out)
          = item_keys config (expected_labels config)
      | (Raise _, _, out) =>
          exists k, (k < List.length (expected_labels config))%nat
                    /\ map result_key (item_results out)
                       = firstn k (item_keys config (expected_labels config))
      end)
  /\ (let run :=
        run_verification Script scripted_get sorted_raises scenario_config
          "token" "org"
          [inr nameless_response; inr (labels_response ["enhancement"])] in
      fst (fst run) = Raise (KeyError "name")
      /\ snd (fst run) = [inr (labels_response ["enhancement"])]
      /\ item_results (snd run) = []
      /\ item_keys scenario_config (expected_labels scenario_config)
         = [ (1, "Issue"); (2, "Issue") ]).
Proof.
  split.
  - intros World requests_get sorted_other config token org w.
    rewrite run_verification_run.
    pose proof (verify_items_results World requests_get sorted_other config
                  (get_github_headers token) org (expected_labels config) true w)
      as Hr.
    destruct (verify_items World requests_get sorted_other config
                (get_github_headers token) org (expected_labels config) true w)
      as [[[b|e] w1] out].
    + rewrite item_results_run. exact (proj1 Hr).
    + rewrite item_results_app. exact Hr.
  - repeat split; reflexivity.
Qed.

(* ------------------------------------------------------------------ *)
(** ** The configuration loader *)

Lemma split_on_nonempty (sep : ascii) (s : string) : split_on sep s <> [].
Proof.
  destruct s as [|c rest]; simpl; [discriminate|].
  destruct (Ascii.eqb c sep); [discriminate|].
  destruct (split_on sep rest); discriminate.
Qed.

Lemma split_on_one (sep : ascii) (s p : string) :
  split_on sep s = [p] <-> s = p /\ contains_char sep p = false.
Proof.
  revert p; induction s as [|c rest IH]; intros p; simpl.
  - split; [intros [= <-]; split; reflexivity|intros [<- _]; reflexivity].
  - destruct (Ascii.eqb c sep) eqn:E.
    + split.
      * intros [= _ H]. destruct (split_on_nonempty _ _ H).
      * intros [<- H]. simpl in H. rewrite E in H. discriminate.
    + destruct (split_on sep rest) as [|piece pieces] eqn:Hs;
        [destruct (split_on_nonempty _ _ Hs)|].
      split.
      * intros [= <- ->]. destruct (proj1 (IH piece) eq_refl) as [-> Hc].
        simpl. rewrite E. split; [reflexivity|exact Hc].
      * intros [<- H]. simpl in H. rewrite E in H. simpl in H.
        assert ([piece] = [rest] /\ pieces = []) as [[= ->] ->].
        { pose proof (proj2 (IH rest) (conj eq_refl H)) as H1.
          injection H1 as -> ->. split; reflexivity. }
        reflexivity.
Qed.

Lemma split_on_two (sep : ascii) (s p q : string) :
  split_on sep s = [p; q]
  <-> s = (p ++ String sep q)%string
      /\ contains_char sep p = false /\ contains_char sep q = false.
Proof.
  revert p; induction s as [|c rest IH]; intros p; simpl.
  - split; [discriminate|]. intros [H _]. destruct p; discriminate.
  - destruct (Ascii.eqb c sep) eqn:E.
    + apply Ascii.eqb_eq in E. subst c. split.
      * intros [= <- H]. apply split_on_one in H. destruct H as [-> Hq].
        repeat split; exact Hq.
      * intros (H & Hp & Hq). destruct p as [|c p].
        -- simpl in H. injection H as ->. f_equal.
           apply split_on_one. split; [reflexivity|exact Hq].
        -- simpl in H. injection H as <- _. simpl in Hp.
           rewrite Ascii.eqb_refl in Hp. discriminate.
    + destruct (split_on sep rest) as [|piece pieces] eqn:Hs;
        [destruct (split_on_nonempty _ _ Hs)|].
      split.
      * intros [= <- ->]. destruct (proj1 (IH piece) eq_refl) as (-> & Hp & Hq).
        simpl. rewrite E. repeat split; assumption.
      * intros (H & Hp & Hq). destruct p as [|c' p].
        -- simpl in H. injection H as -> _. rewrite Ascii.eqb_refl in E. discriminate.
        -- simpl in H. injection H as <- ->. simpl in Hp. rewrite E in Hp. simpl in Hp.
           pose proof (proj2 (IH p) (conj eq_refl (conj Hp Hq))) as H1.
           injection H1 as -> ->. reflexivity.
Qed.

Section LoaderFacts.

Variable World : Type.
Variable path_exists : string -> World -> bool.
Variable yaml_safe_load : string -> World -> string + pyval.
Variable py_int : string -> option Z.

Local Abbreviation load :=
  (load_project_config World path_exists yaml_safe_load py_int).

(** The unpacking gives the two bounds for two pieces that [int] reads,
    and raises [ValueError] for anything else. *)
Lemma unpack_two_ints_run (parts : list string) :
  unpack_two_ints py_int parts =
  match parts with
  | [p; q] =>
      match py_int p, py_int q with
      | Some lo, Some hi => Return (lo, hi)
      | _, _ => Raise ValueError
      end
  | _ => Raise ValueError
  end.
Proof.
  unfold unpack_two_ints, int_of.
  destruct parts as [|p [|q [|r more]]]; simpl; try reflexivity.
  - destruct (py_int p); reflexivity.
  - destruct (py_int p); simpl; [|reflexivity]. destruct (py_int q); reflexivity.
  - destruct (py_int p); simpl; [|reflexivity].
    destruct (py_int q); simpl; [|reflexivity].
    destruct (py_int r); reflexivity.
Qed.

Lemma unpack_two_ints_parse (s : string) (lo hi : Z) :
  unpack_two_ints py_int (split_on "-" s) = Return (lo, hi)
  <-> range_parse py_int s lo hi.
Proof.
  rewrite unpack_two_ints_run. unfold range_parse. split.
  - destruct (split_on "-" s) as [|p [|q [|r more]]] eqn:Hs; try discriminate.
    apply split_on_two in Hs. destruct Hs as (-> & Hp & Hq).
    destruct (py_int p) as [a|] eqn:Ha; [|discriminate].
    destruct (py_int q) as [b|] eqn:Hb; [|discriminate].
    intros [= <- <-]. exists p, q. repeat split; assumption.
  - intros (p & q & -> & Hp & Hq & Ha & Hb).
    change ("-" ++ q)%string with (String "-" q).
    rewrite (proj2 (split_on_two "-" _ p q) (conj eq_refl (conj Hp Hq))).
    rewrite Ha, Hb. reflexivity.
Qed.

Lemma unpack_two_ints_raises (parts : list string) (e : exn) :
  unpack_two_ints py_int parts = Raise e -> e = ValueError.
Proof.
  rewrite unpack_two_ints_run.
  destruct parts as [|p [|q [|r more]]]; try (intros [= <-]; reflexivity).
  destruct (py_int p); [|intros [= <-]; reflexivity].
  destruct (py_int q); [discriminate|intros [= <-]; reflexivity].
Qed.

(** The loader on a file that exists and holds a mapping. *)
Lemma load_project_config_run (path : string) (w : World) (kvs : list (pyval * pyval)) :
  path_exists path w = true ->
  yaml_safe_load path w = inr (PDict kvs) ->
  load path w =
  if negb (dict_has "target_repo" kvs) then
    (Raise (SystemExit 1), w, [(Stderr, MsgFieldMissing "target_repo")])
  else if negb (dict_has "expected_labels" kvs) then
    (Raise (SystemExit 1), w, [(Stderr, MsgFieldMissing "expected_labels")])
  else
    match dict_lookup "issue_range" kvs with
    | None => (Raise (SystemExit 1), w, [(Stderr, MsgFieldMissing "issue_range")])
    | Some (PStr s) =>
        match unpack_two_ints py_int (split_on "-" s) with
        | Return (lo, hi) =>
            (Return (PDict (dict_set "issue_max" (PInt hi)
                              (dict_set "issue_min" (PInt lo) kvs))), w, [])
        | Raise _ => (Raise (SystemExit 1), w, [(Stderr, MsgRangeFormat)])
        end
    | Some _ => (Raise (SystemExit 1), w, [(Stderr, MsgLoadFailed AttributeError)])
    end.
Proof.
  intros Hexists Hyaml.
  unfold load_project_config, bind at 1, os_path_exists. rewrite Hexists. simpl.
  unfold try_except, try_catch, bind at 1, load_yaml. rewrite Hyaml. simpl.
  unfold bind, lift, print, sys_exit, raise, ret; simpl.
  unfold CONFIG.target_repo, CONFIG.expected_labels, CONFIG.issue_range.
  destruct (dict_has "target_repo" kvs); simpl; [|reflexivity].
  destruct (dict_has "expected_labels" kvs); simpl; [|reflexivity].
  unfold dict_has.
  destruct (dict_lookup "issue_range" kvs) as [v|]; simpl; [|reflexivity].
  destruct v; simpl; try reflexivity.
  pose proof (unpack_two_ints_raises (split_on "-" s)) as Hraise.
  destruct (unpack_two_ints py_int (split_on "-" s)) as [[lo hi]|e]; simpl.
  - reflexivity.
  - rewrite (Hraise e eq_refl). reflexivity.
Qed.

(** C7.  On a configuration file that holds a mapping, the loader exits
    with status 1 exactly when one of [target_repo], [expected_labels] and
    [issue_range] is missing or the value of [issue_range] is not a str
    that reads as two integers with one hyphen between them.  Otherwise it
    returns the mapping with the two bounds added, whichever of them is
    the larger. *)
Theorem config_loading_fails_iff (path : string) (w : World)
    (kvs : list (pyval * pyval)) :
  path_exists path w = true ->
  yaml_safe_load path w = inr (PDict kvs) ->
  ((exists out, load path w = (Raise (SystemExit 1), w, out))
   <-> (dict_has "target_repo" kvs = false
        \/ dict_has "expected_labels" kvs = false
        \/ dict_has "issue_range" kvs = false
        \/ ~ (exists s lo hi,
                 dict_lookup "issue_range" kvs = Some (PStr s)
                 /\ range_parse py_int s lo hi)))
  /\ (forall s lo hi,
         dict_has "target_repo" kvs = true ->
         dict_has "expected_labels" kvs = true ->
         dict_lookup "issue_range" kvs = Some (PStr s) ->
         range_parse py_int s lo hi ->
         load path w
         = (Return (PDict (dict_set "issue_max" (PInt hi)
                             (dict_set "issue_min" (PInt lo) kvs))), w, [])).
Proof.
  intros Hexists Hyaml.
  rewrite (load_project_config_run path w kvs Hexists Hyaml).
  split.
  - destruct (dict_has "target_repo" kvs); simpl;
      [|split; [intros _; left; reflexivity|intros _; eexists; reflexivity]].
    destruct (dict_has "expected_labels" kvs); simpl;
      [|split; [intros _; right; left; reflexivity|intros _; eexists; reflexivity]].
    unfold dict_has.
    destruct (dict_lookup "issue_range" kvs) as [v|];
      [|split; [intros _; right; right; left; reflexivity
               |intros _; eexists; reflexivity]].
    destruct v as [| | | |s| |];
      try (split; [intros _; do 3 right; intros (s' & lo & hi & [=] & _)
                  |intros _; eexists; reflexivity]).
    destruct (unpack_two_ints py_int (split_on "-" s)) as [[lo hi]|e] eqn:Hparse.
    + split.
      * intros (out & [=]).
      * intros [[=]|[[=]|[[=]|Hno]]]. exfalso. apply Hno.
        exists s, lo, hi. split; [reflexivity|].
        apply unpack_two_ints_parse, Hparse.
    + split; [|intros _; eexists; reflexivity].
      intros _. do 3 right. intros (s' & lo & hi & [= <-] & Hr).
      apply unpack_two_ints_parse in Hr. congruence.
  - intros s lo hi -> -> Hrange Hr. simpl. rewrite Hrange.
    apply unpack_two_ints_parse in Hr. rewrite Hr. reflexivity.
Qed.

End LoaderFacts.

Lemma config_loading_fails_iff_witness :
  load_project_config unit (fun _ _ => true) (fun _ _ => inr reversed_document)
    decimal_int "label_verify_config.yaml" tt
  = (Return (PDict (dict_set "issue_max" (PInt 1)
                      (dict_set "issue_min" (PInt 15) reversed_entries))), tt, []).
Proof.
  apply (proj2 (config_loading_fails_iff unit (fun _ _ => true)
                  (fun _ _ => inr reversed_document) decimal_int
                  "label_verify_config.yaml" tt reversed_entries eq_refl eq_refl)
           "15-1" 15 1); try reflexivity.
  exists "15", "1". repeat split.
Defined.

(* ------------------------------------------------------------------ *)
(** ** Sample evaluations *)

Example sorted_by_character_code :
  sorted ["b"; "a"; "B"; "ab"; "a"] = ["B"; "a"; "a"; "ab"; "b"].
Proof. reflexivity. Qed.

Example split_range : split_on "-" "1-15" = ["1"; "15"].
Proof. reflexivity. Qed.

Example split_negative : split_on "-" "-5-10" = [""; "5"; "10"].
Proof. reflexivity. Qed.

(** The scenario of two issues: the first matches, the second carries
    [feature] where [enhancement] is expected. *)
Example scenario_run :
  run_verification Script scripted_get sorted_raises scenario_config "token" "org"
    scenario_script
  = (Return false, [],
     header_events scenario_config "org"
       ++ [ (Stdout, MsgChecking "Issue" 1);
            (Stdout, MsgMatch "Issue" 1 [PStr "bug"]);
            (Stdout, MsgChecking "Issue" 2);
            (Stderr, MsgMismatch "Issue" 2);
            (Stderr, MsgExpected ["enhancement"]);
            (Stderr, MsgActual [PStr "feature"]) ]
       ++ footer_events false).
Proof. reflexivity. Qed.

(** The hyphen of a negative bound is taken for a separator. *)
Example negative_bound_rejected :
  load_project_config unit (fun _ _ => true) (fun _ _ => inr (PDict negative_entries))
    decimal_int "label_verify_config.yaml" tt
  = (Raise (SystemExit 1), tt, [(Stderr, MsgRangeFormat)]).
Proof. reflexivity. Qed.

(** A document that is not a mapping ends the loader in its outer handler. *)
Example empty_document_rejected :
  load_project_config unit (fun _ _ => true) (fun _ _ => inr PNone)
    decimal_int "label_verify_config.yaml" tt
  = (Raise (SystemExit 1), tt, [(Stderr, MsgLoadFailed TypeError)]).
Proof. reflexivity. Qed.

(* ------------------------------------------------------------------ *)
(** ** More on the fetcher *)

Lemma substring_prefix (m : nat) (s : string) :
  String.prefix (substring 0 m s) s = true.
Proof.
  revert s; induction m as [|m IH]; intros [|c s]; simpl; try reflexivity.
  destruct (ascii_dec c c) as [_|Hne]; [apply IH|destruct Hne; reflexivity].
Qed.

Lemma substring_length (m : nat) (s : string) :
  String.length (substring 0 m s) = Nat.min m (String.length s).
Proof.
  revert s; induction m as [|m IH]; intros [|c s]; simpl; try reflexivity.
  rewrite IH. reflexivity.
Qed.

Lemma comprehension_raises {A B} (f : A -> outcome B) (l : list A) (e : exn) :
  comprehension f l = Raise e -> exists x, In x l /\ f x = Raise e.
Proof.
  induction l as [|x l IH]; simpl; [discriminate|].
  destruct (f x) as [y|e'] eqn:Hx; simpl.
  - destruct (comprehension f l) as [ys|e'']; simpl; [discriminate|].
    intros [= ->]. destruct (IH eq_refl) as (x' & Hin & Hx').
    exists x'. split; [right; exact Hin|exact Hx'].
  - intros [= ->]. exists x. split; [left; reflexivity|exact Hx].
Qed.

(** What the extraction of line 138 can raise. *)
Lemma label_names_raises (body : pyval) (e : exn) :
  label_names body = Raise e ->
  e = AttributeError \/ e = TypeError \/ e = KeyError "name".
Proof.
  unfold label_names.
  destruct (py_get body "labels" (PList [])) as [labels|e'] eqn:Hget; simpl.
  - destruct (py_iter labels) as [l|e'] eqn:Hiter; simpl.
    + intros H. apply comprehension_raises in H. destruct H as (label & _ & H).
      destruct label; simpl in H; try (injection H as <-; right; left; reflexivity).
      destruct (dict_lookup "name" kvs); [discriminate|].
      injection H as <-. right; right; reflexivity.
    + intros [= <-]. destruct labels; simpl in Hiter; try discriminate;
        injection Hiter as <-; right; left; reflexivity.
  - intros [= <-]. destruct body; simpl in Hget; try discriminate;
      injection Hget as <-; left; reflexivity.
Qed.

Section FetcherMore.

Variable World : Type.
Variable requests_get :
  string -> list (string * string) -> World -> (string + Response) * World.

Local Abbreviation get_github_api := (_get_github_api World requests_get).
Local Abbreviation get_item_labels := (_get_item_labels World requests_get).

(** X1.  [_get_github_api] returns for every reply of the host, after
    one request.  The flag it returns is true exactly when the reply is a
    response of status 200 whose body decodes, and the data is then that
    body, with nothing printed; with a false flag the data is [None]. *)
Theorem get_github_api_flag (endpoint : string) (headers : list (string * string))
    (org repo : string) (w : World) :
  exists success result out,
    get_github_api endpoint headers org repo w
    = (Return (success, result),
       snd (requests_get (api_url org repo endpoint) headers w), out)
    /\ (success = true <->
        exists response,
          fst (requests_get (api_url org repo endpoint) headers w) = inr response
          /\ status_code response = 200%Z
          /\ json response = inr result)
    /\ (success = true -> out = [])
    /\ (success = false -> result = PNone).
Proof.
  rewrite get_github_api_run.
  destruct (requests_get (api_url org repo endpoint) headers w)
    as [[msg|response] w1]; simpl.
  - do 3 eexists. split; [reflexivity|]. repeat split; try discriminate.
    intros (response & [=] & _).
  - destruct (Z.eqb_spec (status_code response) 200) as [Hst|Hst].
    + destruct (json response) as [msg|body] eqn:Hjson.
      * do 3 eexists. split; [reflexivity|]. repeat split; try discriminate.
        intros (response' & [= <-] & _ & H). congruence.
      * do 3 eexists. split; [reflexivity|]. repeat split; try discriminate.
        intros _. exists response. repeat split; assumption.
    + destruct (status_code response =? 404)%Z;
        do 3 eexists; (split; [reflexivity|]); repeat split; try discriminate;
        intros (response' & [= <-] & H & _); contradiction.
Qed.

(** X2.  For a response of a status other than 200 and 404 the call
    prints two lines, both on the error stream: the status, and an excerpt
    that is the first 100 characters of the text of the response, or the
    whole text when it is shorter. *)
Theorem error_status_excerpt (endpoint : string) (headers : list (string * string))
    (org repo : string) (w w1 : World) (response : Response) :
  requests_get (api_url org repo endpoint) headers w = (inr response, w1) ->
  status_code response <> 200%Z ->
  status_code response <> 404%Z ->
  exists excerpt,
    get_github_api endpoint headers org repo w
    = (Return (false, PNone), w1,
       [(Stderr, MsgApiError endpoint (status_code response));
        (Stderr, MsgResponseText excerpt)])
    /\ String.prefix excerpt (text response) = true
    /\ String.length excerpt = Nat.min 100 (String.length (text response)).
Proof.
  intros Hget H200 H404. rewrite get_github_api_run, Hget.
  destruct (Z.eqb_spec (status_code response) 200) as [|_]; [contradiction|].
  destruct (Z.eqb_spec (status_code response) 404) as [|_]; [contradiction|].
  eexists. split; [reflexivity|]. split.
  - apply substring_prefix.
  - apply substring_length.
Qed.

(** X3.  The fetch of an item raises only on a response of status 200
    whose body decodes to a truthy value from which the names of the
    labels cannot be read; it has then printed nothing, and the exception
    is [AttributeError], [TypeError] or [KeyError] for [name].  On every
    other reply it returns. *)
Theorem get_item_labels_raises_on_body_only (n : Z) (headers : list (string * string))
    (org repo : string) (w w1 : World) (e : exn) (out : list event) :
  get_item_labels n headers org repo w = (Raise e, w1, out) ->
  exists response body,
    requests_get (api_url org repo (item_endpoint n)) headers w = (inr response, w1)
    /\ status_code response = 200%Z
    /\ json response = inr body
    /\ truthy body = true
    /\ label_names body = Raise e
    /\ out = []
    /\ (e = AttributeError \/ e = TypeError \/ e = KeyError "name").
Proof.
  rewrite get_item_labels_run, get_github_api_run.
  destruct (requests_get (api_url org repo (item_endpoint n)) headers w)
    as [[msg|response] w0]; simpl; [discriminate|].
  destruct (Z.eqb_spec (status_code response) 200) as [Hst|Hst].
  - destruct (json response) as [msg|body] eqn:Hjson; simpl; [discriminate|].
    destruct (truthy body) eqn:Ht; simpl; [|discriminate].
    destruct (label_names body) as [names|e'] eqn:Hnames; [discriminate|].
    intros [= -> -> <-]. exists response, body.
    repeat split; try assumption; try reflexivity.
    apply (label_names_raises body), Hnames.
  - destruct (status_code response =? 404)%Z; discriminate.
Qed.

(** The world a fetch leaves is the one the request left. *)
Lemma get_item_labels_world (n : Z) (headers : list (string * string))
    (org repo : string) (w : World) :
  snd (fst (get_item_labels n headers org repo w))
  = snd (requests_get (api_url org repo (item_endpoint n)) headers w).
Proof.
  rewrite get_item_labels_run, get_github_api_run.
  destruct (requests_get (api_url org repo (item_endpoint n)) headers w)
    as [[msg|response] w1]; simpl; [reflexivity|].
  destruct (status_code response =? 200)%Z.
  - destruct (json response) as [msg|body]; simpl; [reflexivity|].
    destruct (truthy body); simpl; [|reflexivity].
    destruct (label_names body); reflexivity.
  - destruct (status_code response =? 404)%Z; reflexivity.
Qed.

(** A fetch that returns a list has printed nothing. *)
Lemma get_item_labels_found_silent (n : Z) (headers : list (string * string))
    (org repo : string) (w w1 : World) (labels : list pyval) (out : list event) :
  get_item_labels n headers org repo w = (Return (Some labels), w1, out) -> out = [].
Proof.
  rewrite get_item_labels_run, get_github_api_run.
  destruct (requests_get (api_url org repo (item_endpoint n)) headers w)
    as [[msg|response] w0]; simpl; [discriminate|].
  destruct (status_code response =? 200)%Z.
  - destruct (json response) as [msg|body]; simpl; [discriminate|].
    destruct (truthy body); simpl; [|discriminate].
    destruct (label_names body); [|discriminate]. intros [= _ _ <-]. reflexivity.
  - destruct (status_code response =? 404)%Z; discriminate.
Qed.

End FetcherMore.

(* ------------------------------------------------------------------ *)
(** ** More on the run *)

Section LoopMore.

Variable World : Type.
Variable requests_get :
  string -> list (string * string) -> World -> (string + Response) * World.
Variable sorted_other : list pyval -> outcome (list pyval).

Local Abbreviation get_item_labels := (_get_item_labels World requests_get).
Local Abbreviation verify_item' := (verify_item World requests_get sorted_other).
Local Abbreviation verify_items' := (verify_items World requests_get sorted_other).
Local Abbreviation run_verification' :=
  (run_verification World requests_get sorted_other).

(** A turn of the loop makes the request of its item and no other. *)
Lemma verify_item_world (config : VerificationConfig) (headers : list (string * string))
    (org : string) (n : Z) (expected : list string) (all_passed : bool) (w : World) :
  snd (fst (verify_item' config headers org n expected all_passed w))
  = snd (requests_get (api_url org (target_repo config) (item_endpoint n)) headers w).
Proof.
  rewrite verify_item_run.
  rewrite <- (get_item_labels_world World requests_get n headers org
                (target_repo config) w).
  destruct (get_item_labels n headers org (target_repo config) w)
    as [[[[actual_labels|]|e] w1] diag]; simpl; try reflexivity.
  destruct (sort_actual sorted_other actual_labels) as [actual_sorted|e];
    [|reflexivity].
  destruct (list_eq_strs actual_sorted (sort_expected expected)); reflexivity.
Qed.

Lemma verify_item_stderr (config : VerificationConfig) (headers : list (string * string))
    (org : string) (n : Z) (expected : list string) (all_passed : bool)
    (w w1 : World) (b : bool) (out : list event) :
  verify_item' config headers org n expected all_passed w = (Return b, w1, out) ->
  b = all_passed && negb (existsb on_stderr out).
Proof.
  rewrite verify_item_run.
  pose proof (get_item_labels_found_silent World requests_get n headers org
                (target_repo config) w) as Hsilent.
  destruct (get_item_labels n headers org (target_repo config) w)
    as [[[[actual_labels|]|e] w0] diag]; [| |discriminate].
  - rewrite (Hsilent w0 actual_labels diag eq_refl).
    destruct (sort_actual sorted_other actual_labels) as [actual_sorted|e];
      [|discriminate].
    destruct (list_eq_strs actual_sorted (sort_expected expected));
      intros [= <- _ <-]; simpl;
      rewrite ?andb_true_r, ?andb_false_r; reflexivity.
  - intros [= <- _ <-]. unfold item_events.
    change ((Stdout, MsgChecking (item_type_of config n) n)
              :: diag ++ [(Stderr, MsgFetchFailed (item_type_of config n) n)])
      with ([(Stdout, MsgChecking (item_type_of config n) n)]
              ++ diag ++ [(Stderr, MsgFetchFailed (item_type_of config n) n)]).
    rewrite !existsb_app. simpl. rewrite orb_true_r, andb_false_r. reflexivity.
Qed.

Lemma verify_items_stderr (config : VerificationConfig)
    (headers : list (string * string)) (org : string)
    (items : list (Z * list string)) :
  forall (all_passed : bool) (w w1 : World) (b : bool) (out : list event),
    verify_items' config headers org items all_passed w = (Return b, w1, out) ->
    b = all_passed && negb (existsb on_stderr out).
Proof.
  induction items as [|[n expected] rest IH]; intros all_passed w w1 b out.
  - simpl. intros [= <- _ <-]. simpl. rewrite andb_true_r. reflexivity.
  - simpl. unfold bind.
    pose proof (verify_item_stderr config headers org n expected all_passed w) as Hi.
    destruct (verify_item' config headers org n expected all_passed w)
      as [[[b1|e] w0] out1]; [|discriminate].
    specialize (Hi w0 b1 out1 eq_refl).
    pose proof (IH b1 w0) as Hr.
    destruct (verify_items' config headers org rest b1 w0) as [[[b2|e] w2] out2];
      [|discriminate].
    specialize (Hr w2 b2 out2 eq_refl).
    intros [= <- _ <-]. rewrite existsb_app, negb_orb, Hr, Hi, andb_assoc.
    reflexivity.
Qed.

(** X5.  A run that returns has written on the error stream exactly when
    it returns false: a run that passes prints on the standard output
    only, and a run that fails says so on the error stream. *)
Theorem stderr_iff_failed (config : VerificationConfig) (token org : string)
    (w w1 : World) (b : bool) (out : list event) :
  run_verification' config token org w = (Return b, w1, out) ->
  existsb on_stderr out = negb b.
Proof.
  rewrite run_verification_run.
  pose proof (verify_items_stderr config (get_github_headers token) org
                (expected_labels config) true w) as Hl.
  destruct (verify_items' config (get_github_headers token) org
              (expected_labels config) true w) as [[[b'|e] w'] out']; [|discriminate].
  specialize (Hl w' b' out' eq_refl). simpl in Hl.
  intros Heq.
  assert (b = b' /\ out = header_events config org ++ out' ++ footer_events b')
    as [-> ->] by (inversion Heq; split; reflexivity).
  rewrite !existsb_app. subst b'.
  destruct (existsb on_stderr out'); reflexivity.
Qed.

(** X6.  When the host answers the request for an item with its labels,
    all of them str, the item passes exactly when these labels are the
    expected ones up to their order, each as many times as expected; the
    turn prints the sorted labels, on the standard output when they
    match and on the error stream, with the expected ones, when they do
    not. *)
Theorem item_passes_iff_permutation (config : VerificationConfig)
    (headers : list (string * string)) (org : string) (n : Z)
    (expected names : list string) (all_passed : bool) (w w1 : World)
    (response : Response) (kvs : list (pyval * pyval)) (labels : list pyval) :
  requests_get (api_url org (target_repo config) (item_endpoint n)) headers w
    = (inr response, w1) ->
  status_code response = 200%Z ->
  json response = inr (PDict kvs) ->
  dict_lookup "labels" kvs = Some (PList labels) ->
  Forall2 has_name labels (map PStr names) ->
  exists p : bool,
    (p = true <-> Permutation expected names)
    /\ verify_item' config headers org n expected all_passed w
       = (Return (all_passed && p), w1,
          item_events (item_type_of config n) n []
            (if p
             then [(Stdout, MsgMatch (item_type_of config n) n (map PStr (sorted names)))]
             else [(Stderr, MsgMismatch (item_type_of config n) n);
                   (Stderr, MsgExpected (sorted expected));
                   (Stderr, MsgActual (map PStr (sorted names)))])).
Proof.
  intros Hget Hst Hjson Hlabels Hnames.
  assert (get_item_labels n headers org (target_repo config) w
          = (Return (Some (map PStr names)), w1, [])) as Hfetch.
  { rewrite (get_item_labels_success World requests_get _ _ _ _ _ _ _ _ Hget Hst Hjson).
    assert (truthy (PDict kvs) = true) as ->
      by (destruct kvs; [discriminate Hlabels|reflexivity]).
    unfold label_names, py_get. rewrite Hlabels. simpl.
    rewrite (comprehension_has_name _ _ Hnames). reflexivity. }
  exists (list_eq_strs (map PStr (sorted names)) (sorted expected)). split.
  - rewrite list_eq_strs_map, sorted_eq_iff_perm.
    split; apply Permutation_sym.
  - rewrite verify_item_run, Hfetch, sort_actual_strs.
    change (sort_expected expected) with (sorted expected).
    destruct (list_eq_strs (map PStr (sorted names)) (sorted expected)).
    + rewrite andb_true_r. reflexivity.
    + rewrite andb_false_r. reflexivity.
Qed.

End LoopMore.

Section RequestLog.

Variable W : Type.
Variable get : string -> list (string * string) -> W -> (string + Response) * W.
Variable sorted_other : list pyval -> outcome (list pyval).

Local Abbreviation logged_item :=
  (verify_item (W * list Request) (logging_get get) sorted_other).
Local Abbreviation logged_items :=
  (verify_items (W * list Request) (logging_get get) sorted_other).
Local Abbreviation logged_run :=
  (run_verification (W * list Request) (logging_get get) sorted_other).

Lemma logged_item_request (config : VerificationConfig)
    (headers : list (string * string)) (org : string) (n : Z)
    (expected : list string) (all_passed : bool) (w : W) (log : list Request) :
  snd (snd (fst (logged_item config headers org n expected all_passed (w, log))))
  = log ++ [(api_url org (target_repo config) (item_endpoint n), headers)].
Proof.
  rewrite verify_item_world. unfold logging_get. simpl.
  destruct (get (api_url org (target_repo config) (item_endpoint n)) headers w).
  reflexivity.
Qed.

Lemma logged_items_requests (config : VerificationConfig)
    (headers : list (string * string)) (org : string)
    (items : list (Z * list string)) :
  forall (all_passed : bool) (w : W) (log : list Request),
    let request n := (api_url org (target_repo config) (item_endpoint n), headers) in
    match logged_items config headers org items all_passed (w, log) with
    | (Return _, w1, _) => snd w1 = log ++ map request (map fst items)
    | (Raise _, w1, _) =>
        exists k, (k < List.length items)%nat
                  /\ snd w1 = log ++ map request (firstn (S k) (map fst items))
    end.
Proof.
  induction items as [|[n expected] rest IH]; intros all_passed w log request.
  - simpl. rewrite app_nil_r. reflexivity.
  - simpl. unfold bind.
    pose proof (logged_item_request config headers org n expected all_passed w log)
      as Hreq.
    destruct (logged_item config headers org n expected all_passed (w, log))
      as [[[b1|e] [w1 log1]] out1]; simpl in Hreq; subst log1.
    + specialize (IH b1 w1
                    (log ++ [(api_url org (target_repo config) (item_endpoint n),
                              headers)])).
      cbv zeta in IH. fold request in IH.
      destruct (logged_items config headers org rest b1
                  (w1, log ++ [(api_url org (target_repo config) (item_endpoint n),
                                headers)]))
        as [[[b2|e] [w2 log2]] out2]; cbn [snd] in IH |- *.
      * subst log2. rewrite <- app_assoc. reflexivity.
      * destruct IH as (k & Hk & ->). exists (S k). split; [simpl; lia|].
        rewrite <- app_assoc. reflexivity.
    + exists 0%nat. split; [simpl; lia|]. reflexivity.
Qed.

(** X4.  A run makes one request for each entry of [expected_labels], in
    the order of the mapping and none twice, each to the address of the
    item under the repository, with the headers of the token.  A run that
    an exception ends has made the requests of the entries up to the one
    it ended on, and no other. *)
Theorem one_request_per_item (config : VerificationConfig) (token org : string)
    (w : W) (log : list Request) :
  let request := item_request token org (target_repo config) in
  match logged_run config token org (w, log) with
  | (Return _, w1, _) =>
      snd w1 = log ++ map request (map fst (expected_labels config))
  | (Raise _, w1, _) =>
      exists k, (k < List.length (expected_labels config))%nat
                /\ snd w1
                   = log ++ map request (firstn (S k) (map fst (expected_labels config)))
  end.
Proof.
  intros request. rewrite run_verification_run.
  pose proof (logged_items_requests config (get_github_headers token) org
                (expected_labels config) true w log) as H.
  destruct (logged_items config (get_github_headers token) org
              (expected_labels config) true (w, log)) as [[[b|e] w1] out]; exact H.
Qed.

End RequestLog.

(* ------------------------------------------------------------------ *)
(** ** More on the configuration loader *)

Lemma dict_lookup_set (name name' : string) (v : pyval) (kvs : list (pyval * pyval)) :
  dict_lookup name (dict_set name' v kvs)
  = if (name' =? name)%string then Some v else dict_lookup name kvs.
Proof.
  induction kvs as [|[k v0] rest IH]; simpl.
  - destruct (name' =? name)%string; reflexivity.
  - destruct (key_is name' k) eqn:E; simpl.
    + destruct k; simpl in E; try discriminate.
      apply String.eqb_eq in E. subst s. simpl.
      destruct (name' =? name)%string; reflexivity.
    + rewrite IH. destruct (key_is name k) eqn:E'; [|reflexivity].
      destruct k; simpl in E, E'; try discriminate.
      apply String.eqb_eq in E'. subst s. rewrite String.eqb_sym, E. reflexivity.
Qed.

Lemma split_on_length (sep : ascii) (s : string) :
  List.length (split_on sep s) = S (count_char sep s).
Proof.
  induction s as [|c rest IH]; simpl; [reflexivity|].
  destruct (Ascii.eqb c sep); simpl.
  - rewrite IH. reflexivity.
  - destruct (split_on sep rest) as [|piece pieces]; simpl in *; [discriminate|].
    exact IH.
Qed.

(** Joining the pieces of a split gives the str back. *)
Lemma join_split (sep : ascii) (s : string) : join_with sep (split_on sep s) = s.
Proof.
  induction s as [|c rest IH]; simpl; [reflexivity|].
  destruct (Ascii.eqb c sep) eqn:E.
  - apply Ascii.eqb_eq in E. subst c.
    destruct (split_on sep rest) as [|piece pieces] eqn:Hs;
      [destruct (split_on_nonempty _ _ Hs)|].
    simpl. simpl in IH. rewrite IH. reflexivity.
  - destruct (split_on sep rest) as [|piece pieces] eqn:Hs;
      [destruct (split_on_nonempty _ _ Hs)|].
    simpl in IH |- *. destruct pieces as [|piece' pieces].
    + rewrite IH. reflexivity.
    + simpl. rewrite <- IH. reflexivity.
Qed.

Section LoaderMore.

Variable World : Type.
Variable path_exists : string -> World -> bool.
Variable yaml_safe_load : string -> World -> string + pyval.
Variable py_int : string -> option Z.

Local Abbreviation load :=
  (load_project_config World path_exists yaml_safe_load py_int).

Lemma load_missing_file (path : string) (w : World) :
  path_exists path w = false ->
  load path w = (Raise (SystemExit 1), w, [(Stderr, MsgConfigFileMissing path)]).
Proof.
  intros H. unfold load_project_config, bind, os_path_exists. rewrite H. reflexivity.
Qed.

Lemma load_unreadable (path : string) (w : World) (msg : string) :
  path_exists path w = true ->
  yaml_safe_load path w = inl msg ->
  load path w
  = (Raise (SystemExit 1), w, [(Stderr, MsgLoadFailed (LibraryError msg))]).
Proof.
  intros H1 H2.
  unfold load_project_config, bind at 1, os_path_exists. rewrite H1. simpl.
  unfold try_except, try_catch, bind at 1, load_yaml. rewrite H2. reflexivity.
Qed.

Lemma load_not_mapping (path : string) (w : World) (document : pyval) :
  path_exists path w = true ->
  yaml_safe_load path w = inr document ->
  (forall kvs, document <> PDict kvs) ->
  load path w = (Raise (SystemExit 1), w, [(Stderr, MsgLoadFailed TypeError)])
  \/ exists field,
       load path w = (Raise (SystemExit 1), w, [(Stderr, MsgFieldMissing field)]).
Proof.
  intros H1 H2 Hdoc.
  assert (forall present : string -> bool,
             py_contains document = (fun name => Return (present name)) ->
             py_getitem document "issue_range" = Raise TypeError ->
             load path w = (Raise (SystemExit 1), w, [(Stderr, MsgLoadFailed TypeError)])
             \/ exists field,
                  load path w
                  = (Raise (SystemExit 1), w, [(Stderr, MsgFieldMissing field)]))
    as Hpresent.
  { intros present Hc Hg.
    destruct (present CONFIG.target_repo) eqn:E1;
      [destruct (present CONFIG.expected_labels) eqn:E2;
       [destruct (present CONFIG.issue_range) eqn:E3|]|];
      [left|right; eexists|right; eexists|right; eexists];
      unfold load_project_config, try_except, try_catch, bind, os_path_exists,
        load_yaml, lift, print, sys_exit, raise, ret;
      rewrite H1; simpl; rewrite H2; simpl; rewrite Hc, ?E1; simpl;
      rewrite ?E2; simpl; rewrite ?E3; simpl; rewrite ?Hg; reflexivity. }
  destruct document as [| | | |s|l|kvs];
    try (left;
         unfold load_project_config, try_except, try_catch, bind, os_path_exists,
           load_yaml, lift, print, sys_exit, raise, ret;
         rewrite H1; simpl; rewrite H2; reflexivity).
  - apply (Hpresent (fun name => is_substring name s)); reflexivity.
  - apply (Hpresent (fun name => existsb (key_is name) l)); reflexivity.
  - destruct (Hdoc kvs eq_refl).
Qed.

(** A file that is missing, unreadable or not a mapping ends the loader. *)
Lemma load_cases (path : string) (w : World) :
  (exists kvs, path_exists path w = true /\ yaml_safe_load path w = inr (PDict kvs))
  \/ (exists m, load path w = (Raise (SystemExit 1), w, [(Stderr, m)])).
Proof.
  destruct (path_exists path w) eqn:H1;
    [|right; eexists; apply load_missing_file, H1].
  destruct (yaml_safe_load path w) as [msg|document] eqn:H2;
    [right; eexists; apply (load_unreadable path w msg H1 H2)|].
  assert ((exists kvs, document = PDict kvs) \/ (forall kvs, document <> PDict kvs))
    as [[kvs ->]|Hdoc]
    by (destruct document; try (right; discriminate); left; eexists; reflexivity).
  - left. exists kvs. split; reflexivity.
  - destruct (load_not_mapping path w document H1 H2 Hdoc) as [->|[field ->]];
      right; eexists; reflexivity.
Qed.

(** The loader returns or exits with status 1. *)
Lemma load_outcomes (path : string) (w : World) :
  (exists config kvs,
      load path w = (Return config, w, [])
      /\ path_exists path w = true
      /\ yaml_safe_load path w = inr (PDict kvs))
  \/ (exists m, load path w = (Raise (SystemExit 1), w, [(Stderr, m)])).
Proof.
  destruct (load_cases path w) as [(kvs & H1 & H2)|Hexit]; [|right; exact Hexit].
  rewrite (load_project_config_run World path_exists yaml_safe_load py_int
             path w kvs H1 H2).
  destruct (dict_has "target_repo" kvs); simpl; [|right; eexists; reflexivity].
  destruct (dict_has "expected_labels" kvs); simpl; [|right; eexists; reflexivity].
  destruct (dict_lookup "issue_range" kvs) as [v|]; [|right; eexists; reflexivity].
  destruct v; try (right; eexists; reflexivity).
  destruct (unpack_two_ints py_int (split_on "-" s)) as [[lo hi]|e];
    [|right; eexists; reflexivity].
  left. do 2 eexists. split; [reflexivity|]. split; [exact H1|exact H2].
Qed.

(** X7.  Whatever the file system holds, the loader either returns, with
    the world as it was and nothing printed, or exits with status 1 after
    one line on the error stream; no other exception leaves it.  It
    returns only for a file that exists and holds a mapping: a missing
    file and a file that cannot be read or decoded end it with the line
    for that case. *)
Theorem load_returns_or_exits (path : string) (w : World) :
  ((exists config kvs,
       load_project_config World path_exists yaml_safe_load py_int path w
       = (Return config, w, [])
       /\ path_exists path w = true
       /\ yaml_safe_load path w = inr (PDict kvs))
   \/ (exists m,
          load_project_config World path_exists yaml_safe_load py_int path w
          = (Raise (SystemExit 1), w, [(Stderr, m)])))
  /\ (path_exists path w = false ->
      load_project_config World path_exists yaml_safe_load py_int path w
      = (Raise (SystemExit 1), w, [(Stderr, MsgConfigFileMissing path)]))
  /\ (forall msg,
         path_exists path w = true ->
         yaml_safe_load path w = inl msg ->
         load_project_config World path_exists yaml_safe_load py_int path w
         = (Raise (SystemExit 1), w, [(Stderr, MsgLoadFailed (LibraryError msg))])).
Proof.
  split; [apply load_outcomes|]. split.
  - apply load_missing_file.
  - intros msg. apply load_unreadable.
Qed.

(** The loader raises nothing but the exit with status 1. *)
Lemma load_raises_exit (path : string) (w w1 : World) (e : exn) (out : list event) :
  load path w = (Raise e, w1, out) ->
  e = SystemExit 1 /\ w1 = w /\ exists m, out = [(Stderr, m)].
Proof.
  destruct (load_outcomes path w) as [(config & kvs & -> & _)|[m ->]].
  - discriminate.
  - intros [= <- <- <-]. split; [reflexivity|]. split; [reflexivity|].
    exists m. reflexivity.
Qed.

(** X8.  The mapping the loader returns is the mapping of the file with
    the two bounds that [issue_range] reads as under [issue_min] and
    [issue_max]; every other key has the value it has in the file, and
    the three required keys are among them. *)
Theorem loaded_mapping (path : string) (w w1 : World) (config : pyval)
    (out : list event) :
  load path w = (Return config, w1, out) ->
  exists kvs loaded s lo hi,
    yaml_safe_load path w = inr (PDict kvs)
    /\ config = PDict loaded
    /\ dict_lookup "issue_range" kvs = Some (PStr s)
    /\ range_parse py_int s lo hi
    /\ dict_lookup "issue_min" loaded = Some (PInt lo)
    /\ dict_lookup "issue_max" loaded = Some (PInt hi)
    /\ (forall name,
           name <> "issue_min" -> name <> "issue_max" ->
           dict_lookup name loaded = dict_lookup name kvs)
    /\ dict_has "target_repo" loaded = true
    /\ dict_has "expected_labels" loaded = true.
Proof.
  intros Hload.
  destruct (load_cases path w) as [(kvs & H1 & H2)|Hexit].
  2:{ destruct Hexit as [m Hm]. congruence. }
  rewrite (load_project_config_run World path_exists yaml_safe_load py_int
             path w kvs H1 H2) in Hload.
  unfold dict_has in *.
  destruct (dict_lookup "target_repo" kvs) as [repo|] eqn:Hrepo; [|discriminate].
  destruct (dict_lookup "expected_labels" kvs) as [labels|] eqn:Hexp; [|discriminate].
  simpl in Hload.
  destruct (dict_lookup "issue_range" kvs) as [v|] eqn:Hrange; [|discriminate].
  destruct v; try discriminate.
  destruct (unpack_two_ints py_int (split_on "-" s)) as [[lo hi]|e] eqn:Hparse;
    [|discriminate].
  injection Hload as <- _ _.
  exists kvs, (dict_set "issue_max" (PInt hi) (dict_set "issue_min" (PInt lo) kvs)),
    s, lo, hi.
  split; [exact H2|]. split; [reflexivity|]. split; [exact Hrange|].
  split; [apply unpack_two_ints_parse, Hparse|].
  rewrite !dict_lookup_set. simpl. split; [reflexivity|]. split; [reflexivity|].
  split.
  - intros name Hmin Hmax. rewrite !dict_lookup_set.
    destruct (String.eqb_spec "issue_max" name) as [<-|_]; [destruct Hmax; reflexivity|].
    destruct (String.eqb_spec "issue_min" name) as [<-|_]; [destruct Hmin; reflexivity|].
    reflexivity.
  - rewrite Hrepo, Hexp. split; reflexivity.
Qed.

(** X9.  A range with no hyphen, or with more than one, is refused
    whatever [int] reads: the loader prints the line about the format of
    the range and exits with status 1.  A bound with a minus sign cannot
    be written. *)
Theorem range_needs_one_hyphen (path : string) (w : World)
    (kvs : list (pyval * pyval)) (s : string) :
  path_exists path w = true ->
  yaml_safe_load path w = inr (PDict kvs) ->
  dict_has "target_repo" kvs = true ->
  dict_has "expected_labels" kvs = true ->
  dict_lookup "issue_range" kvs = Some (PStr s) ->
  count_char "-" s <> 1%nat ->
  load path w = (Raise (SystemExit 1), w, [(Stderr, MsgRangeFormat)]).
Proof.
  intros H1 H2 Hrepo Hexp Hrange Hcount.
  rewrite (load_project_config_run World path_exists yaml_safe_load py_int
             path w kvs H1 H2), Hrepo, Hexp, Hrange. simpl.
  rewrite unpack_two_ints_run.
  pose proof (split_on_length "-" s) as Hlen.
  destruct (split_on "-" s) as [|p [|q [|r more]]]; try reflexivity.
  simpl in Hlen. injection Hlen as Hlen. destruct Hcount. symmetry. exact Hlen.
Qed.

(** X10.  A file whose [target_repo] is a str and whose
    [expected_labels] maps ints to lists of str loads into the
    configuration [run_verification] reads: that repository, those
    entries in the order of the file, and the two bounds of the range. *)
Theorem loaded_config_view (path : string) (w : World) (kvs entries : list (pyval * pyval))
    (repo s : string) (expected : list (Z * list string)) (lo hi : Z) :
  path_exists path w = true ->
  yaml_safe_load path w = inr (PDict kvs) ->
  dict_lookup "target_repo" kvs = Some (PStr repo) ->
  dict_lookup "expected_labels" kvs = Some (PDict entries) ->
  view_expected entries = Some expected ->
  dict_lookup "issue_range" kvs = Some (PStr s) ->
  range_parse py_int s lo hi ->
  exists config,
    load path w = (Return config, w, [])
    /\ config_view config = Some (mkConfig repo lo hi expected).
Proof.
  intros H1 H2 Hrepo Hexp Hview Hrange Hparse.
  rewrite (load_project_config_run World path_exists yaml_safe_load py_int
             path w kvs H1 H2).
  unfold dict_has. rewrite Hrepo, Hexp, Hrange. simpl.
  apply unpack_two_ints_parse in Hparse. rewrite Hparse.
  eexists. split; [reflexivity|].
  unfold config_view. rewrite !dict_lookup_set. simpl.
  rewrite Hrepo, Hexp, Hview. reflexivity.
Qed.

End LoaderMore.

Lemma loaded_mapping_witness :
  exists kvs loaded s lo hi,
    @inr string pyval reversed_document = inr (PDict kvs)
    /\ PDict (dict_set "issue_max" (PInt 1) (dict_set "issue_min" (PInt 15)
                                                reversed_entries))
       = PDict loaded
    /\ dict_lookup "issue_range" kvs = Some (PStr s)
    /\ range_parse decimal_int s lo hi
    /\ dict_lookup "issue_min" loaded = Some (PInt lo)
    /\ dict_lookup "issue_max" loaded = Some (PInt hi)
    /\ (forall name,
           name <> "issue_min" -> name <> "issue_max" ->
           dict_lookup name loaded = dict_lookup name kvs)
    /\ dict_has "target_repo" loaded = true
    /\ dict_has "expected_labels" loaded = true.
Proof.
  apply (loaded_mapping unit (fun _ _ => true) (fun _ _ => inr reversed_document)
           decimal_int "label_verify_config.yaml" tt tt _ []).
  reflexivity.
Defined.

Lemma range_needs_one_hyphen_witness :
  load_project_config unit (fun _ _ => true) (fun _ _ => inr (PDict negative_entries))
    decimal_int "label_verify_config.yaml" tt
  = (Raise (SystemExit 1), tt, [(Stderr, MsgRangeFormat)]).
Proof.
  apply (range_needs_one_hyphen unit (fun _ _ => true)
           (fun _ _ => inr (PDict negative_entries)) decimal_int
           "label_verify_config.yaml" tt negative_entries "-5-10");
    try reflexivity.
  simpl. discriminate.
Defined.

Lemma loaded_config_view_witness :
  exists config,
    load_project_config unit (fun _ _ => true) (fun _ _ => inr demo_document)
      decimal_int "label_verify_config.yaml" tt
    = (Return config, tt, [])
    /\ config_view config
       = Some (mkConfig "demo" 1 2 [ (1, ["bug"]); (2, ["enhancement"]) ]).
Proof.
  apply (loaded_config_view unit (fun _ _ => true) (fun _ _ => inr demo_document)
           decimal_int "label_verify_config.yaml" tt
           [ (PStr "target_repo", PStr "demo");
             (PStr "issue_range", PStr "1-2");
             (PStr "expected_labels",
              PDict [ (PInt 1, PList [PStr "bug"]);
                      (PInt 2, PList [PStr "enhancement"]) ]) ]
           [ (PInt 1, PList [PStr "bug"]); (PInt 2, PList [PStr "enhancement"]) ]
           "demo" "1-2" _ 1 2); try reflexivity.
  exists "1", "2". repeat split.
Defined.

Lemma load_returns_or_exits_witness :
  load_project_config unit (fun _ _ => false) (fun _ _ => inr reversed_document)
    decimal_int "label_verify_config.yaml" tt
  = (Raise (SystemExit 1), tt,
     [(Stderr, MsgConfigFileMissing "label_verify_config.yaml")]).
Proof.
  apply (proj1 (proj2 (load_returns_or_exits unit (fun _ _ => false)
                         (fun _ _ => inr reversed_document) decimal_int
                         "label_verify_config.yaml" tt))).
  reflexivity.
Defined.

(* ------------------------------------------------------------------ *)
(** ** The addresses of the items *)

Lemma append_cancel (p s t : string) : (p ++ s)%string = (p ++ t)%string -> s = t.
Proof.
  induction p as [|c p IH]; simpl; [auto|]. intros [= H]. apply IH, H.
Qed.

Lemma int_of_str_of_int (n : Z) : int_of_str (str_of_int n) = Some n.
Proof.
  unfold int_of_str, str_of_int.
  rewrite NilZero.isi.
  - simpl. rewrite DecimalZ.of_to. reflexivity.
  - destruct n; simpl; intros [= H]; apply (Unsigned.to_uint_nonnil _ H).
  - destruct n; simpl; intros [= H]; apply (Unsigned.to_uint_nonnil _ H).
Qed.

(** X15.  The number of an item can be read back from its address: the
    addresses of two items of a repository are the same only for the same
    item, so no two entries of the configuration share a request. *)
Theorem item_address_determines_item (org repo : string) (n m : Z) :
  (api_url org repo (item_endpoint n) = api_url org repo (item_endpoint m) <-> n = m)
  /\ int_of_str (str_of_int n) = Some n.
Proof.
  split; [|apply int_of_str_of_int]. split; [|intros ->; reflexivity].
  unfold api_url, item_endpoint. intros H.
  do 6 apply append_cancel in H.
  assert (int_of_str (str_of_int n) = int_of_str (str_of_int m)) as Hs
    by (f_equal; exact H).
  rewrite !int_of_str_of_int in Hs. congruence.
Qed.

(* ------------------------------------------------------------------ *)
(** ** The entry point *)

Lemma unset_false (v : option string) :
  unset v = false <-> exists s, v = Some s /\ s <> EmptyString.
Proof.
  destruct v as [s|]; simpl.
  - rewrite String.eqb_neq. split.
    + intros H. exists s. split; [reflexivity|exact H].
    + intros (s' & [= <-] & H). exact H.
  - split; [discriminate|intros (s & [=] & _)].
Qed.

Section EntryFacts.

Variable World : Type.
Variable path_exists : string -> World -> bool.
Variable yaml_safe_load : string -> World -> string + pyval.
Variable py_int : string -> option Z.
Variable load_dotenv : string -> World -> option string * World.
Variable getenv : string -> World -> option string.
Variable requests_get :
  string -> list (string * string) -> World -> (string + Response) * World.
Variable sorted_other : list pyval -> outcome (list pyval).
Variable run_untyped : pyval -> string -> string -> M World bool.

Local Abbreviation load_env :=
  (load_environment World path_exists load_dotenv getenv).
Local Abbreviation load :=
  (load_project_config World path_exists yaml_safe_load py_int).
Local Abbreviation run_on :=
  (run_verification_on World requests_get sorted_other run_untyped).
Local Abbreviation main' :=
  (main World path_exists yaml_safe_load py_int load_dotenv getenv requests_get
     sorted_other run_untyped).

Lemma load_environment_run (env_path : string) (w : World) :
  load_env env_path w =
  if negb (path_exists env_path w) then
    (Raise (SystemExit 1), w, [(Stderr, MsgEnvFileMissing env_path)])
  else
    match load_dotenv env_path w with
    | (Some msg, w1) => (Raise (LibraryError msg), w1, [])
    | (None, w1) =>
        if unset (getenv "MCP_GITHUB_TOKEN" w1) then
          (Raise (SystemExit 1), w1, [(Stderr, MsgTokenMissing env_path)])
        else if unset (getenv "GITHUB_EVAL_ORG" w1) then
          (Raise (SystemExit 1), w1, [(Stderr, MsgOrgMissing env_path)])
        else
          (Return (env_value (getenv "MCP_GITHUB_TOKEN" w1),
                   env_value (getenv "GITHUB_EVAL_ORG" w1)), w1, [])
    end.
Proof.
  unfold load_environment, pbind at 1, core, os_path_exists. simpl.
  destruct (path_exists env_path w); simpl; [|reflexivity].
  unfold pbind, dotenv, os_getenv, say, process_exit, praise, pret. simpl.
  destruct (load_dotenv env_path w) as [[msg|] w1]; simpl; [reflexivity|].
  change ENV_VARS.github_token_var with "MCP_GITHUB_TOKEN".
  change ENV_VARS.github_org_var with "GITHUB_EVAL_ORG".
  destruct (unset (getenv "MCP_GITHUB_TOKEN" w1)); simpl; [reflexivity|].
  destruct (unset (getenv "GITHUB_EVAL_ORG" w1)); reflexivity.
Qed.

(** X11.  [load_environment] returns a token and an organization exactly
    when the file exists, [load_dotenv] reads it, and the environment it
    leaves has both variables set to these, neither of them empty; it
    prints nothing then.  When it does not return it exits with status 1
    after one line on the error stream, or lets the exception of
    [load_dotenv] through. *)
Theorem load_environment_returns_iff (env_path : string) (w : World) :
  (forall token org w1 out,
      load_environment World path_exists load_dotenv getenv env_path w
      = (Return (token, org), w1, out)
      <-> (path_exists env_path w = true
           /\ load_dotenv env_path w = (None, w1)
           /\ getenv "MCP_GITHUB_TOKEN" w1 = Some token /\ token <> EmptyString
           /\ getenv "GITHUB_EVAL_ORG" w1 = Some org /\ org <> EmptyString
           /\ out = []))
  /\ (forall e w1 out,
         load_environment World path_exists load_dotenv getenv env_path w
         = (Raise e, w1, out) ->
         (e = SystemExit 1 /\ exists m, out = [(Stderr, m)])
         \/ (exists msg,
                e = LibraryError msg /\ load_dotenv env_path w = (Some msg, w1)
                /\ out = [])).
Proof.
  rewrite load_environment_run. split.
  - intros token org w1 out.
    destruct (path_exists env_path w); simpl;
      [|split; [discriminate|intros ([=] & _)]].
    destruct (load_dotenv env_path w) as [[msg|] w0];
      [split; [discriminate|intros (_ & [=] & _)]|].
    destruct (unset (getenv "MCP_GITHUB_TOKEN" w0)) eqn:Ht.
    { split; [discriminate|].
      intros (_ & [= <-] & Htok & Hne & _).
      rewrite Htok in Ht. simpl in Ht. apply String.eqb_eq in Ht. contradiction. }
    destruct (unset (getenv "GITHUB_EVAL_ORG" w0)) eqn:Ho.
    { split; [discriminate|].
      intros (_ & [= <-] & _ & _ & Horg & Hne & _).
      rewrite Horg in Ho. simpl in Ho. apply String.eqb_eq in Ho. contradiction. }
    apply unset_false in Ht, Ho.
    destruct Ht as (t & Ht & Htne), Ho as (o & Ho & Hone).
    rewrite Ht, Ho. simpl. split.
    + intros [= <- <- <- <-]. repeat split; assumption.
    + intros (_ & [= <-] & Ht' & _ & Ho' & _ & ->).
      rewrite Ht in Ht'. rewrite Ho in Ho'. injection Ht' as <-. injection Ho' as <-.
      reflexivity.
  - intros e w1 out.
    destruct (path_exists env_path w); simpl;
      [|intros [= <- _ <-]; left; split; [reflexivity|eexists; reflexivity]].
    destruct (load_dotenv env_path w) as [[msg|] w0].
    + intros [= <- <- <-]. right. exists msg. repeat split.
    + destruct (unset (getenv "MCP_GITHUB_TOKEN" w0));
        [intros [= <- _ <-]; left; split; [reflexivity|eexists; reflexivity]|].
      destruct (unset (getenv "GITHUB_EVAL_ORG" w0));
        [intros [= <- _ <-]; left; split; [reflexivity|eexists; reflexivity]|].
      discriminate.
Qed.

(** X12.  A token that is missing or empty is reported first: whatever
    the organization, [load_environment] then exits with status 1 on the
    line about the token, and the line about the organization is printed
    only when the token is set. *)
Theorem token_checked_before_org (env_path : string) (w w1 : World) :
  path_exists env_path w = true ->
  load_dotenv env_path w = (None, w1) ->
  (unset (getenv "MCP_GITHUB_TOKEN" w1) = true ->
   load_env env_path w
   = (Raise (SystemExit 1), w1, [(Stderr, MsgTokenMissing env_path)]))
  /\ (forall out,
         load_env env_path w
         = (Raise (SystemExit 1), w1, (Stderr, MsgOrgMissing env_path) :: out) ->
         unset (getenv "MCP_GITHUB_TOKEN" w1) = false
         /\ unset (getenv "GITHUB_EVAL_ORG" w1) = true).
Proof.
  intros H1 H2. rewrite load_environment_run, H1, H2. simpl. split.
  - intros ->. reflexivity.
  - intros out.
    destruct (unset (getenv "MCP_GITHUB_TOKEN" w1)); [discriminate|].
    destruct (unset (getenv "GITHUB_EVAL_ORG" w1)); [|discriminate].
    intros _. split; reflexivity.
Qed.

Lemma main_run (args : Namespace) (w : World) :
  main' args w =
  match load_env (args_env args) w with
  | (Return (token, org), w1, out1) =>
      match load (args_config args) w1 with
      | (Return project_config, w2, out2) =>
          match run_on project_config token org w2 with
          | (Return b, w3, out3) =>
              (Raise (SystemExit (if b then 0 else 1)), w3,
               (Stdout, MsgLoadingEnv (args_env args)) :: out1
                 ++ (Stdout, MsgLoadingConfig (args_config args)) :: map core_event out2
                 ++ (Stdout, MsgSeparator) :: map core_event out3)
          | (Raise e, w3, out3) =>
              (Raise e, w3,
               (Stdout, MsgLoadingEnv (args_env args)) :: out1
                 ++ (Stdout, MsgLoadingConfig (args_config args)) :: map core_event out2
                 ++ (Stdout, MsgSeparator) :: map core_event out3)
          end
      | (Raise e, w2, out2) =>
          (Raise e, w2,
           (Stdout, MsgLoadingEnv (args_env args)) :: out1
             ++ (Stdout, MsgLoadingConfig (args_config args)) :: map core_event out2)
      end
  | (Raise e, w1, out1) =>
      (Raise e, w1, (Stdout, MsgLoadingEnv (args_env args)) :: out1)
  end.
Proof.
  unfold main, pbind, say, core, process_exit, praise. simpl.
  destruct (load_env (args_env args) w) as [[[[token org]|e] w1] out1]; simpl;
    [|reflexivity].
  destruct (load (args_config args) w1) as [[[project_config|e] w2] out2]; simpl.
  - destruct (run_on project_config token org w2) as [[[b|e] w3] out3]; simpl.
    + rewrite ?app_nil_r. reflexivity.
    + reflexivity.
  - rewrite ?app_nil_r. reflexivity.
Qed.

(** X13.  With the environment and the configuration loaded, the
    process ends by the exit whose status tells the result of the
    verification: 0 when [run_verification] returns true and 1 when it
    returns false. *)
Theorem main_exit_status (args : Namespace) (w w1 w2 w3 : World)
    (token org : string) (project_config : pyval) (config : VerificationConfig)
    (b : bool) (out1 : list process_event) (out2 out3 : list event) :
  load_env (args_env args) w = (Return (token, org), w1, out1) ->
  load (args_config args) w1 = (Return project_config, w2, out2) ->
  config_view project_config = Some config ->
  run_verification World requests_get sorted_other config token org w2
    = (Return b, w3, out3) ->
  exists out,
    main' args w = (Raise (SystemExit (if b then 0 else 1)), w3, out)
    /\ (SystemExit (if b then 0 else 1) = SystemExit 0 <-> b = true)
    /\ exists setup, out = setup ++ map core_event out3.
Proof.
  intros Henv Hload Hview Hrun.
  rewrite main_run, Henv, Hload. unfold run_verification_on. rewrite Hview, Hrun.
  eexists. split; [reflexivity|]. split.
  - destruct b; split; try reflexivity; discriminate.
  - exists ((Stdout, MsgLoadingEnv (args_env args)) :: out1
              ++ (Stdout, MsgLoadingConfig (args_config args)) :: map core_event out2
              ++ [(Stdout, MsgSeparator)]).
    simpl. rewrite <- !app_assoc. simpl. rewrite <- !app_assoc. reflexivity.
Qed.

(** X14.  The process never returns: it ends by an exception, the exit
    of the last line of [main] or an earlier one.  When the environment
    does not load it ends as [load_environment] ends; when the
    configuration does not load it ends by the exit with status 1, in the
    world the loading of the environment left: the verification has not
    started, and no line of it is printed. *)
Theorem main_stops_on_setup_failure (args : Namespace) (w : World) :
  (exists e w1 out, main' args w = (Raise e, w1, out))
  /\ (forall e w1 out1,
         load_env (args_env args) w = (Raise e, w1, out1) ->
         main' args w = (Raise e, w1, (Stdout, MsgLoadingEnv (args_env args)) :: out1))
  /\ (forall token org w1 out1 e w2 out2,
         load_env (args_env args) w = (Return (token, org), w1, out1) ->
         load (args_config args) w1 = (Raise e, w2, out2) ->
         exists m,
           main' args w
           = (Raise (SystemExit 1), w1,
              (Stdout, MsgLoadingEnv (args_env args)) :: out1
                ++ [(Stdout, MsgLoadingConfig (args_config args)); (Stderr, Core m)])).
Proof.
  split; [|split].
  - rewrite main_run.
    destruct (load_env (args_env args) w) as [[[[token org]|e] w1] out1];
      [|do 3 eexists; reflexivity].
    destruct (load (args_config args) w1) as [[[project_config|e] w2] out2];
      [|do 3 eexists; reflexivity].
    destruct (run_on project_config token org w2) as [[[b|e] w3] out3];
      do 3 eexists; reflexivity.
  - intros e w1 out1 Henv. rewrite main_run, Henv. reflexivity.
  - intros token org w1 out1 e w2 out2 Henv Hload.
    destruct (load_raises_exit World path_exists yaml_safe_load py_int _ _ _ _ _ Hload)
      as (-> & -> & m & ->).
    exists m. rewrite main_run, Henv, Hload. reflexivity.
Qed.

End EntryFacts.

Lemma load_environment_returns_iff_witness :
  load_environment Machine machine_exists machine_dotenv machine_getenv ".mcp_env"
    (demo_machine [])
  = (Return ("token", "org"),
     snd (machine_dotenv ".mcp_env" (demo_machine [])), []).
Proof.
  apply (proj1 (load_environment_returns_iff Machine machine_exists machine_dotenv
                  machine_getenv ".mcp_env" (demo_machine []))
           "token" "org" (snd (machine_dotenv ".mcp_env" (demo_machine []))) []).
  repeat split; try reflexivity; discriminate.
Defined.

Lemma token_checked_before_org_witness :
  let w := mkMachine [(".mcp_env", PNone)] [] [] [] in
  load_environment Machine machine_exists machine_dotenv machine_getenv ".mcp_env" w
  = (Raise (SystemExit 1), snd (machine_dotenv ".mcp_env" w),
     [(Stderr, MsgTokenMissing ".mcp_env")]).
Proof.
  apply (proj1 (token_checked_before_org Machine machine_exists machine_dotenv
                  machine_getenv ".mcp_env" (mkMachine [(".mcp_env", PNone)] [] [] [])
                  _ eq_refl eq_refl)).
  reflexivity.
Defined.

Lemma main_exit_status_witness :
  exists out,
    demo_main (demo_machine scenario_script)
    = (Raise (SystemExit 1),
       snd (fst (demo_main (demo_machine scenario_script))), out)
    /\ (SystemExit 1 = SystemExit 0 <-> false = true)
    /\ exists setup,
         out = setup
               ++ map core_event
                    (snd (run_verification Machine machine_get sorted_raises
                            scenario_config "token" "org"
                            (snd (machine_dotenv ".mcp_env"
                                    (demo_machine scenario_script))))).
Proof.
  apply (main_exit_status Machine machine_exists machine_yaml decimal_int
           machine_dotenv machine_getenv machine_get sorted_raises untyped_raises
           (parse_args None None) (demo_machine scenario_script)
           (snd (machine_dotenv ".mcp_env" (demo_machine scenario_script)))
           (snd (machine_dotenv ".mcp_env" (demo_machine scenario_script)))
           (snd (fst (demo_main (demo_machine scenario_script))))
           "token" "org"
           (PDict (dict_set "issue_max" (PInt 2)
                     (dict_set "issue_min" (PInt 1)
                        [ (PStr "target_repo", PStr "demo");
                          (PStr "issue_range", PStr "1-2");
                          (PStr "expected_labels",
                           PDict [ (PInt 1, PList [PStr "bug"]);
                                   (PInt 2, PList [PStr "enhancement"]) ]) ])))
           scenario_config false [] []
           (snd (run_verification Machine machine_get sorted_raises
                   scenario_config "token" "org"
                   (snd (machine_dotenv ".mcp_env" (demo_machine scenario_script))))));
    reflexivity.
Defined.

Lemma main_stops_on_setup_failure_witness :
  let w := mkMachine [(".mcp_env", PNone)]
             [("MCP_GITHUB_TOKEN", "token"); ("GITHUB_EVAL_ORG", "org")] []
             scenario_script in
  exists m,
    demo_main w
    = (Raise (SystemExit 1), snd (machine_dotenv ".mcp_env" w),
       (Stdout, MsgLoadingEnv ".mcp_env") :: []
         ++ [(Stdout, MsgLoadingConfig "label_verify_config.yaml"); (Stderr, Core m)])
    /\ pending (snd (machine_dotenv ".mcp_env" w)) = scenario_script.
Proof.
  intros w.
  destruct (proj2 (proj2 (main_stops_on_setup_failure Machine machine_exists
                            machine_yaml decimal_int machine_dotenv machine_getenv
                            machine_get sorted_raises untyped_raises
                            (parse_args None None) w))
              "token" "org" (snd (machine_dotenv ".mcp_env" w)) []
              (SystemExit 1) (snd (machine_dotenv ".mcp_env" w))
              [(Stderr, MsgConfigFileMissing "label_verify_config.yaml")]
              eq_refl eq_refl) as [m Hm].
  exists m. split; [exact Hm|reflexivity].
Defined.

(** The scenario of two issues, from the command line to the exit. *)
Example demo_process :
  demo_main (demo_machine scenario_script)
  = (Raise (SystemExit 1),
     mkMachine (files (demo_machine []))
       [ ("MCP_GITHUB_TOKEN", "token"); ("GITHUB_EVAL_ORG", "org") ]
       [ ("MCP_GITHUB_TOKEN", "token"); ("GITHUB_EVAL_ORG", "org") ] [],
     [ (Stdout, MsgLoadingEnv ".mcp_env");
       (Stdout, MsgLoadingConfig "label_verify_config.yaml");
       (Stdout, MsgSeparator) ]
       ++ map core_event
            (header_events scenario_config "org"
               ++ [ (Stdout, MsgChecking "Issue" 1);
                    (Stdout, MsgMatch "Issue" 1 [PStr "bug"]);
                    (Stdout, MsgChecking "Issue" 2);
                    (Stderr, MsgMismatch "Issue" 2);
                    (Stderr, MsgExpected ["enhancement"]);
                    (Stderr, MsgActual [PStr "feature"]) ]
               ++ footer_events false)).
Proof. reflexivity. Qed.

(* ------------------------------------------------------------------ *)
(** ** More runs against a scripted host *)

Lemma error_status_excerpt_witness :
  exists excerpt,
    _get_github_api Script scripted_get "issues/7" (get_github_headers "token")
      "org" "demo" [inr (status_response 500 "Internal Server Error")]
    = (Return (false, PNone), [],
       [(Stderr, MsgApiError "issues/7" 500); (Stderr, MsgResponseText excerpt)])
    /\ String.prefix excerpt "Internal Server Error" = true
    /\ String.length excerpt = Nat.min 100 21.
Proof.
  apply (error_status_excerpt Script scripted_get "issues/7"
           (get_github_headers "token") "org" "demo"
           [inr (status_response 500 "Internal Server Error")] []
           (status_response 500 "Internal Server Error") eq_refl);
    simpl; discriminate.
Defined.

Lemma get_item_labels_raises_on_body_only_witness :
  exists response body,
    scripted_get (api_url "org" "demo" (item_endpoint 1)) (get_github_headers "token")
      [inr nameless_response]
    = (inr response, [])
    /\ status_code response = 200
    /\ json response = inr body
    /\ truthy body = true
    /\ label_names body = Raise (KeyError "name")
    /\ @nil event = []
    /\ (KeyError "name" = AttributeError \/ KeyError "name" = TypeError
        \/ KeyError "name" = KeyError "name").
Proof.
  apply (get_item_labels_raises_on_body_only Script scripted_get 1
           (get_github_headers "token") "org" "demo" [inr nameless_response] []
           (KeyError "name") []).
  reflexivity.
Defined.

Lemma stderr_iff_failed_witness :
  existsb on_stderr
    (snd (run_verification Script scripted_get sorted_raises scenario_config
            "token" "org" scenario_script))
  = negb false.
Proof.
  apply (stderr_iff_failed Script scripted_get sorted_raises scenario_config
           "token" "org" scenario_script [] false).
  reflexivity.
Defined.

Lemma item_passes_iff_permutation_witness :
  exists p : bool,
    (p = true <-> Permutation ["docs"; "api"] ["api"; "docs"])
    /\ verify_item Script scripted_get sorted_raises gap_config
         (get_github_headers "token") "org" 20 ["docs"; "api"] true
         [inr (labels_response ["api"; "docs"])]
       = (Return (true && p), [],
          item_events "PR" 20 []
            (if p
             then [(Stdout, MsgMatch "PR" 20 [PStr "api"; PStr "docs"])]
             else [(Stderr, MsgMismatch "PR" 20);
                   (Stderr, MsgExpected ["api"; "docs"]);
                   (Stderr, MsgActual [PStr "api"; PStr "docs"])])).
Proof.
  apply (item_passes_iff_permutation Script scripted_get sorted_raises gap_config
           (get_github_headers "token") "org" 20 ["docs"; "api"] ["api"; "docs"] true
           [inr (labels_response ["api"; "docs"])] []
           (labels_response ["api"; "docs"])
           [ (PStr "number", PInt 1);
             (PStr "labels",
              PList [ PDict [(PStr "id", PInt 7); (PStr "name", PStr "api")];
                      PDict [(PStr "id", PInt 7); (PStr "name", PStr "docs")] ]) ]
           [ PDict [(PStr "id", PInt 7); (PStr "name", PStr "api")];
             PDict [(PStr "id", PInt 7); (PStr "name", PStr "docs")] ]);
    try reflexivity.
  repeat constructor; eexists; split; reflexivity.
Defined.

(* ------------------------------------------------------------------ *)
(** ** A run that an exception ends *)

Section LoopAbort.

Variable World : Type.
Variable requests_get :
  string -> list (string * string) -> World -> (string + Response) * World.
Variable sorted_other : list pyval -> outcome (list pyval).

(** X16.  Let the entries before an item have been processed, and let
    the fetch of the item raise.  Then the run raises the same exception
    right after the announcement of the item: the entries after it are
    not processed, the footer is not printed, and the verdicts printed
    are those of the entries before the item. *)
Theorem fetch_exception_aborts_run (config : VerificationConfig)
    (token org : string) (before after : list (Z * list string)) (n : Z)
    (expected : list string) (w w0 w1 : World) (b0 : bool) (out0 diag : list event)
    (e : exn) :
  expected_labels config = before ++ (n, expected) :: after ->
  verify_items World requests_get sorted_other config (get_github_headers token) org
    before true w
  = (Return b0, w0, out0) ->
  _get_item_labels World requests_get n (get_github_headers token) org
    (target_repo config) w0
  = (Raise e, w1, diag) ->
  let out :=
    header_events config org
      ++ out0 ++ (Stdout, MsgChecking (item_type_of config n) n) :: diag in
  run_verification World requests_get sorted_other config token org w
  = (Raise e, w1, out)
  /\ map result_key (item_results out) = item_keys config before.
Proof.
  intros Hcfg Hbefore Hfetch out.
  pose proof (get_item_labels_diag World requests_get n (get_github_headers token)
                org (target_repo config) w0) as Hd.
  rewrite Hfetch in Hd. simpl in Hd.
  pose proof (verify_items_results World requests_get sorted_other config
                (get_github_headers token) org before true w) as Hr.
  rewrite Hbefore in Hr. destruct Hr as [Hkeys _].
  split.
  - rewrite run_verification_run, Hcfg, verify_items_app,
      (bind_prepend _ _ _ _ _ _ Hbefore).
    simpl. unfold bind at 1. rewrite verify_item_run, Hfetch. reflexivity.
  - unfold out. rewrite !item_results_app.
    change ((Stdout, MsgChecking (item_type_of config n) n) :: diag)
      with ([(Stdout, MsgChecking (item_type_of config n) n)] ++ diag).
    rewrite item_results_app, (item_results_diag diag Hd). simpl.
    rewrite app_nil_r. exact Hkeys.
Qed.

End LoopAbort.

Lemma fetch_exception_aborts_run_witness :
  let out :=
    header_events scenario_config "org"
      ++ [ (Stdout, MsgChecking "Issue" 1); (Stdout, MsgMatch "Issue" 1 [PStr "bug"]) ]
      ++ (Stdout, MsgChecking "Issue" 2) :: [] in
  run_verification Script scripted_get sorted_raises scenario_config "token" "org"
    [inr (labels_response ["bug"]); inr nameless_response]
  = (Raise (KeyError "name"), [], out)
  /\ map result_key (item_results out) = item_keys scenario_config [ (1, ["bug"]) ].
Proof.
  apply (fetch_exception_aborts_run Script scripted_get sorted_raises scenario_config
           "token" "org" [ (1, ["bug"]) ] [] 2 ["enhancement"]
           [inr (labels_response ["bug"]); inr nameless_response]
           [inr nameless_response] [] true
           [ (Stdout, MsgChecking "Issue" 1); (Stdout, MsgMatch "Issue" 1 [PStr "bug"]) ]
           [] (KeyError "name"));
    reflexivity.
Defined.
